(** * Local feature matching: Harris corners, SIFT-like descriptors, ratio test

    A shallow embedding of [student.py]: [get_interest_points],
    [get_features] and [match_features].

    Numbers.  The code computes on numpy [float64] values.  The embedding is
    written once over an interface [Arith] of the arithmetic the code uses,
    with two instances: [binary64] (IEEE 754 double precision, the kernel's
    primitive floats, executable) and [real] (the real numbers, rounding
    idealised away).  Structural facts are proved for every instance; facts
    that depend on the laws of arithmetic are proved for [real]; concrete
    runs are evaluated on [binary64].

    Library calls ([cv2.Sobel], [skimage.filters.gaussian], [scharr_v],
    [scharr_h]) are parameters of the functions that call them. *)

From Stdlib Require Import List ZArith Lia Bool QArith Reals Lra Floats Permutation Sorted.
From Stdlib Require Lqa.
Import ListNotations.
Local Open Scope Z_scope.

(** ** Python values and exceptions *)

Inductive exn : Set :=
| IndexError
| ValueError
| TypeError
| AttributeError.

Inductive result (A : Type) : Type :=
| Ok (a : A)
| Raise (e : exn).
Arguments Ok {A} a.
Arguments Raise {A} e.

Definition bind {A B : Type} (r : result A) (k : A -> result B) : result B :=
  match r with
  | Ok a => k a
  | Raise e => Raise e
  end.

Notation "x <- c ;; k" := (bind c (fun x => k))
  (at level 61, c at next level, right associativity).
Notation "' p <- c ;; k" := (bind c (fun x => let 'p := x in k))
  (at level 61, p pattern, c at next level, right associativity).

Fixpoint mapM {A B : Type} (f : A -> result B) (l : list A) : result (list B) :=
  match l with
  | [] => Ok []
  | a :: l' => b <- f a ;; bs <- mapM f l' ;; Ok (b :: bs)
  end.

Module Py.

(** [int(q)]: truncation toward zero. *)
Definition int (q : Q) : Z := Z.quot (Qnum q) (Zpos (Qden q)).

(** [range(start, stop, step)] for a positive [step]. *)
Definition range (start stop step : Z) : list Z :=
  map (fun k => start + step * Z.of_nat k)
      (seq 0 (Z.to_nat ((stop - start + step - 1) / step))).

(** A slice bound as Python resolves it against a sequence of length [len]:
    a negative bound counts from the end, and the result is clipped. *)
Definition bound (len i : Z) : Z :=
  if i <? 0 then Z.max 0 (i + len) else Z.min i len.

(** [l[start:stop]]. *)
Definition slice {A : Type} (l : list A) (start stop : Z) : list A :=
  let len := Z.of_nat (length l) in
  let s := bound len start in
  let e := bound len stop in
  firstn (Z.to_nat (e - s)) (skipn (Z.to_nat s) l).

(** [m[r0:r1, c0:c1]] on a 2D array held as its list of rows. *)
Definition slice2 {A : Type} (m : list (list A)) (r0 r1 c0 c1 : Z) : list (list A) :=
  map (fun row => slice row c0 c1) (slice m r0 r1).

(** [l[i]] for a non-negative [i]. *)
Definition index {A : Type} (l : list A) (i : nat) : result A :=
  match nth_error l i with
  | Some a => Ok a
  | None => Raise IndexError
  end.

(** Elementwise binary operation on two arrays of one shape. *)
Definition map2 {A B C : Type} (f : A -> B -> C) (l : list A) (l' : list B) : list C :=
  map (fun p => f (fst p) (snd p)) (combine l l').

End Py.

(** ** The arithmetic of the code *)

Class Arith (num : Type) : Type := {
  of_Z : Z -> num;
  add : num -> num -> num;
  sub : num -> num -> num;
  mul : num -> num -> num;
  div : num -> num -> num;
  sqrt : num -> num;
  ltb : num -> num -> bool;
  leb : num -> num -> bool;
  eqb : num -> num -> bool;
  isnan : num -> bool
}.

(** The functions of [get_features] that the primitive floats lack. *)
Class Transcendental (num : Type) : Type := {
  two_pi : num;
  arctan2 : num -> num -> num;
  pow : num -> num -> num
}.

Section Numbers.
Context {num : Type} `{Arith num}.

(** The decimal literal [n/d] ([0.03] is [lit 3 100]): the number nearest
    to it. *)
Definition lit (n d : Z) : num := div (of_Z n) (of_Z d).
Definition zero : num := of_Z 0.
Definition one : num := of_Z 1.
Definition square (a : num) : num := mul a a.

(** [np.sum] of the entries taken in row-major order (numpy may add them
    pairwise, which changes the rounding only). *)
Definition np_sum (l : list num) : num := fold_left add l zero.

Definition matrix : Type := list (list num).
End Numbers.
Arguments matrix num : clear implicits.

(** *** IEEE 754 binary64 *)

Definition float_of_Z (z : Z) : float :=
  match z with
  | Z0 => PrimFloat.zero
  | Zpos _ => PrimFloat.of_uint63 (Uint63.of_Z z)
  | Zneg p => PrimFloat.opp (PrimFloat.of_uint63 (Uint63.of_Z (Zpos p)))
  end.

#[export] Instance binary64 : Arith float := {
  of_Z := float_of_Z;
  add := PrimFloat.add;
  sub := PrimFloat.sub;
  mul := PrimFloat.mul;
  div := PrimFloat.div;
  sqrt := PrimFloat.sqrt;
  ltb := PrimFloat.ltb;
  leb := PrimFloat.leb;
  eqb := PrimFloat.eqb;
  isnan := PrimFloat.is_nan
}.

(** *** Real numbers *)

Definition Rltb (a b : R) : bool := if Rlt_dec a b then true else false.
Definition Rleb (a b : R) : bool := if Rle_dec a b then true else false.
Definition Reqb (a b : R) : bool := if Req_dec_T a b then true else false.

#[export] Instance real : Arith R := {
  of_Z := IZR;
  add := Rplus;
  sub := Rminus;
  mul := Rmult;
  div := Rdiv;
  sqrt := R_sqrt.sqrt;
  ltb := Rltb;
  leb := Rleb;
  eqb := Reqb;
  isnan := fun _ => false
}.

(** [np.arctan2(y, x)]. *)
Definition Rarctan2 (y x : R) : R :=
  if Rlt_dec 0 x then atan (y / x)
  else if Rlt_dec x 0 then
    if Rle_dec 0 y then (atan (y / x) + PI)%R else (atan (y / x) - PI)%R
  else if Rlt_dec 0 y then (PI / 2)%R
  else if Rlt_dec y 0 then (- PI / 2)%R
  else 0%R.

(** [x ** y] for [0 <= x] and [0 < y], where the code uses it (numpy gives
    [nan] on a negative base, which has no counterpart here). *)
Definition Rpow (x y : R) : R :=
  if Rle_dec x 0 then 0%R else Rpower x y.

#[export] Instance real_transcendental : Transcendental R := {
  two_pi := (2 * PI)%R;
  arctan2 := Rarctan2;
  pow := Rpow
}.

(** ** [get_interest_points] *)

Module Detector.
Section Detector.
Context {num : Type} `{Arith num}.

Definition Alpha : num := lit 3 100.
Definition threshold : num := lit 5 1000.
Definition stride : Z := 2.

(** [np.sum(m[y:y + feature_width + 1, x:x + feature_width + 1])]. *)
Definition window_sum (m : matrix num) (y x feature_width : Z) : num :=
  np_sum (concat (Py.slice2 m y (y + feature_width + 1) x (x + feature_width + 1))).

(** The value [R] of lines 67-72 at the scan position [(y, x)]. *)
Definition response (dx2 dy2 dxy : matrix num) (y x feature_width : Z) : num :=
  let Sxx := window_sum dx2 y x feature_width in
  let Syy := window_sum dy2 y x feature_width in
  let Sxy := window_sum dxy y x feature_width in
  let detH := sub (mul Sxx Syy) (square Sxy) in
  let traceH := add Sxx Syy in
  sub detH (mul Alpha (square traceH)).

(** [int(feature_width / 2 - 1)]. *)
Definition offset (feature_width : Z) : Z :=
  Py.int (inject_Z feature_width / 2 - 1)%Q.

(** The two loops of lines 65-76; a point is the pair of what is appended
    to [xs] and to [ys]. *)
Definition harris_scan (dx2 dy2 dxy : matrix num) (rows columns feature_width : Z)
  : list (Z * Z) :=
  flat_map (fun y =>
    flat_map (fun x =>
      if ltb threshold (response dx2 dy2 dxy y x feature_width)
      then [(x + offset feature_width, y + offset feature_width)]
      else [])
      (Py.range 0 (columns - feature_width) stride))
    (Py.range 0 (rows - feature_width) stride).

(** Lines 52-77 on the smoothed gradients [dx], [dy] of line 59. *)
Definition harris_points (dx dy : matrix num) (rows columns feature_width : Z)
  : list Z * list Z :=
  let dx2 := map (map square) dx in
  let dy2 := map (map square) dy in
  let dxy := Py.map2 (Py.map2 mul) dx dy in
  let pts := harris_scan dx2 dy2 dxy rows columns feature_width in
  (map fst pts, map snd pts).

(** The library calls: [cv2_Sobel image dx dy] is
    [cv2.Sobel(image, cv2.CV_8U, dx, dy, ksize=5)], an array of bytes, and
    [gaussian a sigma] is [skimage.filters.gaussian(a, sigma)]. *)
Variable pixel : Type.
Variable cv2_Sobel : list (list pixel) -> Z -> Z -> list (list Z).
Variable gaussian : list (list Z) -> num -> matrix num.

(** A 2D array is the list of its rows; [shape[1]] is the length of a row. *)
Definition get_interest_points (image : list (list pixel)) (feature_width : Z)
  : list Z * list Z :=
  let sigma := lit 3 10 in
  let rows := Z.of_nat (length image) in
  let columns := Z.of_nat (length (hd [] image)) in
  let dx := cv2_Sobel image 1 0 in
  let dy := cv2_Sobel image 0 1 in
  let dx := gaussian dx sigma in
  let dy := gaussian dy sigma in
  harris_points dx dy rows columns feature_width.

End Detector.
End Detector.

(** ** [get_features] *)

Module Descriptor.

(** What the tuple [rows] (or [cols]) of lines 154-163 holds: a number and
    an array, or, once line 158 (or 163) has run, an array and a Python
    [int]. *)
Inductive bounds : Type :=
| Shifted (lo : Q) (hi : list Q)
| Clamped (lo : list Q) (hi : Z).

(** Lines 155-156 and 160-161. *)
Definition shift_low (lo : Q) (hi : list Q) : Q * list Q :=
  if negb (Qle_bool 0 lo) then (0%Q, map (fun v => (v - lo)%Q) hi) else (lo, hi).

(** [(hi >= n).all()]. *)
Definition all_ge (hi : list Q) (n : Z) : bool :=
  forallb (fun v => Qle_bool (inject_Z n) v) hi.

(** Lines 154-158; [x] is the whole coordinate array. *)
Definition row_bounds (cor_x : Z) (x : list Z) (feature_width shape0 : Z) : bounds :=
  let half := (inject_Z feature_width / 2)%Q in
  let rows := (inject_Z cor_x - (half - 1), map (fun v => inject_Z v + half) x)%Q in
  let rows := shift_low (fst rows) (snd rows) in
  if all_ge (snd rows) shape0
  then Clamped (map (fun v => fst rows + (inject_Z (shape0 - 1) - v))%Q (snd rows)) (shape0 - 1)
  else Shifted (fst rows) (snd rows).

(** Lines 159-163. *)
Definition col_bounds (cor_y : Z) (y : list Z) (feature_width shape1 : Z) : bounds :=
  let half := (inject_Z feature_width / 2)%Q in
  let cols := (inject_Z cor_y - (half - 1), map (fun v => inject_Z v + half) y)%Q in
  let cols := shift_low (fst cols) (snd cols) in
  if all_ge (snd cols) shape1
  then Clamped (map (fun v => fst cols - (v + 1 - inject_Z shape1))%Q (snd cols)) (shape1 - 1)
  else Shifted (fst cols) (snd cols).

(** [int(b[0])]: an array converts only when it has a single entry. *)
Definition int_first (b : bounds) : result Z :=
  match b with
  | Shifted lo _ => Ok (Py.int lo)
  | Clamped [v] _ => Ok (Py.int v)
  | Clamped _ _ => Raise TypeError
  end.

(** [b[1].astype(int) + 1]: a Python [int] has no [astype]. *)
Definition astype_second (b : bounds) : result (list Z) :=
  match b with
  | Shifted _ hi => Ok (map (fun v => Py.int v + 1) hi)
  | Clamped _ _ => Raise AttributeError
  end.

(** [a[-1]]. *)
Definition last_entry (a : list Z) : result Z :=
  match rev a with
  | v :: _ => Ok v
  | [] => Raise IndexError
  end.

(** [l[n] = v] for [n] in range. *)
Fixpoint set_nth {A : Type} (l : list A) (n : nat) (v : A) : list A :=
  match l, n with
  | [], _ => []
  | _ :: l', O => v :: l'
  | a :: l', S n' => a :: set_nth l' n' v
  end.

Section Descriptor.
Context {num : Type} `{Arith num} `{Transcendental num}.

(** The nine edges of [np.histogram(..., bins=8, range=(0, 2 * np.pi))]. *)
Definition edge (k : Z) : num :=
  if k =? 8 then two_pi else mul (of_Z k) (div two_pi (of_Z 8)).

(** Bin [k] holds the values from [edge k] up to [edge (k + 1)], which
    only the last bin includes. *)
Definition in_bin (k : Z) (a : num) : bool :=
  leb (edge k) a && (if k =? 7 then leb a (edge 8) else ltb a (edge (k + 1))).

(** [np.histogram(a, bins=8, range=(0, 2 * np.pi), weights=w)[0]]. *)
Definition histogram (a w : list num) : list num :=
  map (fun k => np_sum (map snd (filter (fun p => in_bin k (fst p)) (combine a w))))
      (Py.range 0 8 1).

(** [w[int(i*fw/4):int((i+1)*fw/4), int(j*fw/4):int((j+1)*fw/4)].flatten()]. *)
Definition cell (w : matrix num) (i j feature_width : Z) : list num :=
  concat (Py.slice2 w
    (Py.int (inject_Z (i * feature_width) / 4)%Q)
    (Py.int (inject_Z ((i + 1) * feature_width) / 4)%Q)
    (Py.int (inject_Z (j * feature_width) / 4)%Q)
    (Py.int (inject_Z ((j + 1) * feature_width) / 4)%Q)).

(** One block of [features]: 4 x 4 x 8. *)
Definition block : Type := list (list (list num)).
Definition zero_block : block := repeat (repeat (repeat zero 8%nat) 4%nat) 4%nat.

(** [features[m, i, j] = h], with [i] and [j] taken from a [range]. *)
Definition set_cell (f : block) (i j : Z) (h : list num) : result block :=
  if (i <? 4) && (j <? 4)
  then Ok (set_nth f (Z.to_nat i) (set_nth (nth (Z.to_nat i) f []) (Z.to_nat j) h))
  else Raise IndexError.

(** Lines 171-180 for one interest point. *)
Definition fill_cells (grad_w theta_w : matrix num) (feature_width : Z) : result block :=
  let cells := Py.range 0 (Py.int (inject_Z feature_width / 4)%Q) 1 in
  fold_left (fun acc ij =>
    f <- acc ;;
    let current_grad := cell grad_w (fst ij) (snd ij) feature_width in
    let current_theta := cell theta_w (fst ij) (snd ij) feature_width in
    set_cell f (fst ij) (snd ij) (histogram current_theta current_grad))
    (list_prod cells cells) (Ok zero_block).

(** Lines 153-180 for one interest point [(cor_x, cor_y)]. *)
Definition describe_point (grad thetas : matrix num) (x y : list Z)
    (shape0 shape1 feature_width : Z) (cor : Z * Z) : result block :=
  let rows := row_bounds (fst cor) x feature_width shape0 in
  let cols := col_bounds (snd cor) y feature_width shape1 in
  i1 <- int_first rows ;;
  i2 <- astype_second rows ;;
  j1 <- int_first cols ;;
  j2 <- astype_second cols ;;
  i2_last <- last_entry i2 ;;
  j2_last <- last_entry j2 ;;
  let grad_w := Py.slice2 grad i1 i2_last j1 j2_last in
  let theta_w := Py.slice2 thetas i1 i2_last j1 j2_last in
  fill_cells grad_w theta_w feature_width.

(** [features.reshape((len(x), -1))]: the unknown dimension cannot be
    inferred for an array without entries. *)
Definition reshape (features : list block) : result (matrix num) :=
  match features with
  | [] => Raise ValueError
  | _ => Ok (map (fun f => concat (concat f)) features)
  end.

(** Lines 182-187 on one row. *)
Definition normalize (row : list num) : list num :=
  let dev := sqrt (np_sum (map square row)) in
  let dev := if eqb dev zero then one else dev in
  map (fun v => div v dev) row.

Definition clip (v : num) : num :=
  let threshold := lit 3 10 in
  if leb threshold v then threshold else v.

Definition compress (v : num) : num := pow v (lit 8 10).

Definition finish (row : list num) : list num :=
  map compress (map clip (normalize row)).

(** Lines 144-189 on the gradients [dx], [dy] of lines 147-148; [x] and
    [y] are integer arrays, which lines 142-143 leave as they are. *)
Definition features_of_gradients (dx dy : matrix num) (shape0 shape1 : Z)
    (x y : list Z) (feature_width : Z) : result (matrix num) :=
  let grad := Py.map2 (Py.map2 (fun a b => sqrt (add (square a) (square b)))) dx dy in
  let thetas := Py.map2 (Py.map2 (fun a b => arctan2 b a)) dx dy in
  let thetas := map (map (fun t => if ltb t zero then add t two_pi else t)) thetas in
  described <- mapM (describe_point grad thetas x y shape0 shape1 feature_width)
                    (combine x y) ;;
  let features := described ++ repeat zero_block (length x - length described)%nat in
  features <- reshape features ;;
  Ok (map finish features).

(** The library calls: [gaussian image sigma], [scharr_v] and [scharr_h]
    of [skimage.filters]. *)
Variable pixel : Type.
Variable gaussian : list (list pixel) -> num -> matrix num.
Variables scharr_v scharr_h : matrix num -> matrix num.

Definition get_features (image : list (list pixel)) (x y : list Z) (feature_width : Z)
  : result (matrix num) :=
  let sigma := lit 8 10 in
  let filtered_image := gaussian image sigma in
  let dx := scharr_v filtered_image in
  let dy := scharr_h filtered_image in
  features_of_gradients dx dy
    (Z.of_nat (length image)) (Z.of_nat (length (hd [] image))) x y feature_width.

End Descriptor.
End Descriptor.

(** ** [match_features] *)

Module Matcher.
Section Matcher.
Context {num : Type} `{Arith num}.

(** [a - b] for two rows under numpy's broadcasting. *)
Definition broadcast_sub (a b : list num) : result (list num) :=
  if (length a =? length b)%nat then Ok (Py.map2 sub a b)
  else match a, b with
       | [u], _ => Ok (map (fun v => sub u v) b)
       | _, [v] => Ok (map (fun u => sub u v) a)
       | _, _ => Raise ValueError
       end.

(** Line 233: the distance of [row] to every row of [im2_features]. *)
Definition distances (row : list num) (im2_features : matrix num) : result (list num) :=
  mapM (fun r => d <- broadcast_sub row r ;; Ok (sqrt (np_sum (map square d))))
       im2_features.

(** The order of [np.argsort]: ascending, [nan] last. *)
Definition sort_le (a b : num) : bool :=
  isnan b || (negb (isnan a) && leb a b).

Fixpoint insert (p : nat * num) (l : list (nat * num)) : list (nat * num) :=
  match l with
  | [] => [p]
  | q :: l' => if sort_le (snd p) (snd q) then p :: l else q :: insert p l'
  end.

(** [np.argsort(distance)], as a stable insertion sort of the indices.
    The code reads the first two entries only, and accepts a match only
    when the smallest distance is attained once. *)
Definition argsort (distance : list num) : list nat :=
  map fst (fold_right insert [] (combine (seq 0 (length distance)) distance)).

(** Lines 233-241 for row [i]: the match and its confidence, if any. *)
Definition match_row (i : nat) (row : list num) (im2_features : matrix num)
  : result (option ((nat * nat) * num)) :=
  distance <- distances row im2_features ;;
  let sorted_distances := argsort distance in
  s0 <- Py.index sorted_distances 0 ;;
  d1 <- Py.index distance s0 ;;
  s1 <- Py.index sorted_distances 1 ;;
  d2 <- Py.index distance s1 ;;
  if ltb d1 (mul (lit 8 10) d2)
  then Ok (Some ((i, s0), sub one (div d1 d2)))
  else Ok None.

(** The loop of lines 231-241 from row [i] on. *)
Fixpoint match_loop (i : nat) (im1_features im2_features : matrix num)
  : result (list (nat * nat) * list num) :=
  match im1_features with
  | [] => Ok ([], [])
  | row :: rest =>
      r <- match_row i row im2_features ;;
      acc <- match_loop (S i) rest im2_features ;;
      Ok (match r with
          | Some mc => (fst mc :: fst acc, snd mc :: snd acc)
          | None => acc
          end)
  end.

(** [np.min] of an array without [nan]. *)
Definition np_min (l : list num) : result num :=
  match l with
  | [] => Raise ValueError
  | c :: l' => Ok (fold_left (fun m v => if ltb v m then v else m) l' c)
  end.

Definition match_features (im1_features im2_features : matrix num)
  : result (list (nat * nat) * list num) :=
  acc <- match_loop 0 im1_features im2_features ;;
  let matches := fst acc in
  let confidences := snd acc in
  lowest <- np_min (filter (fun c => negb (isnan c)) confidences) ;;
  Ok (matches, map (fun c => if isnan c then lowest else c) confidences).

End Matcher.
End Matcher.

(** ** The detector as the specification words it

    The window has side [feature_width] and the point emitted is its corner
    moved by half the window. *)

Module Claimed.
Section Claimed.
Context {num : Type} `{Arith num}.

Definition window_sum (m : matrix num) (y x feature_width : Z) : num :=
  np_sum (concat (Py.slice2 m y (y + feature_width) x (x + feature_width))).

Definition response (dx2 dy2 dxy : matrix num) (y x feature_width : Z) : num :=
  let Sxx := window_sum dx2 y x feature_width in
  let Syy := window_sum dy2 y x feature_width in
  let Sxy := window_sum dxy y x feature_width in
  sub (sub (mul Sxx Syy) (square Sxy)) (mul (lit 3 100) (square (add Sxx Syy))).

Definition harris_scan (dx2 dy2 dxy : matrix num) (rows columns feature_width : Z)
  : list (Z * Z) :=
  flat_map (fun y =>
    flat_map (fun x =>
      if ltb (lit 5 1000) (response dx2 dy2 dxy y x feature_width)
      then [(x + feature_width / 2, y + feature_width / 2)]
      else [])
      (Py.range 0 (columns - feature_width) 2))
    (Py.range 0 (rows - feature_width) 2).

Definition harris_points (dx dy : matrix num) (rows columns feature_width : Z)
  : list Z * list Z :=
  let dx2 := map (map square) dx in
  let dy2 := map (map square) dy in
  let dxy := Py.map2 (Py.map2 mul) dx dy in
  let pts := harris_scan dx2 dy2 dxy rows columns feature_width in
  (map fst pts, map snd pts).

End Claimed.
End Claimed.

(** ** Concrete inputs *)

Module Sample.

(** Smoothed gradients of a 4 x 4 image: [dx] is 0.5 at row 0, column 2,
    [dy] is 0.5 at row 2, column 0, and both are 0 elsewhere. *)
Definition o : float := lit 0 1.
Definition h : float := lit 1 2.
Definition dx_4x4 : matrix float :=
  [[o; o; h; o]; [o; o; o; o]; [o; o; o; o]; [o; o; o; o]].
Definition dy_4x4 : matrix float :=
  [[o; o; o; o]; [o; o; o; o]; [h; o; o; o]; [o; o; o; o]].

End Sample.

(** ** Models of the library filters

    Stand-ins for [cv2.Sobel(image, cv2.CV_8U, dx, dy, ksize=5)] and for
    [skimage.filters.gaussian(a, 0.3)] on byte images, used to exhibit
    filters that meet what the facts below assume of the library. *)

Module Library.

(** OpenCV's default border, [BORDER_REFLECT_101]. *)
Definition reflect101 (n i : Z) : Z :=
  if i <? 0 then - i else if n <=? i then 2 * (n - 1) - i else i.

(** The border of [scipy.ndimage] in mode [nearest]. *)
Definition nearest (n i : Z) : Z := Z.max 0 (Z.min (n - 1) i).

Definition smooth5 : list Z := [1; 4; 6; 4; 1].
Definition deriv5 : list Z := [-1; -2; 0; 2; 1].
Definition taps {A : Type} (k : list A) : list (Z * A) := combine [-2; -1; 0; 1; 2] k.
Definition saturate_u8 (v : Z) : Z := Z.max 0 (Z.min 255 v).

Definition Sobel5 (image : list (list Z)) (dx dy : Z) : list (list Z) :=
  let rows := Z.of_nat (length image) in
  let columns := Z.of_nat (length (hd [] image)) in
  let kx := if dx =? 1 then deriv5 else smooth5 in
  let ky := if dy =? 1 then deriv5 else smooth5 in
  let at2 r c :=
    nth (Z.to_nat (reflect101 columns c)) (nth (Z.to_nat (reflect101 rows r)) image []) 0 in
  map (fun r =>
    map (fun c =>
      saturate_u8
        (fold_left Z.add
           (map (fun ab => snd (fst ab) * snd (snd ab) * at2 (r + fst (fst ab)) (c + fst (snd ab)))
                (list_prod (taps ky) (taps kx))) 0))
      (Py.range 0 columns 1))
    (Py.range 0 rows 1).

(** The three normalised weights of a Gaussian of sigma 0.3 truncated at
    radius 1, to eight decimals. *)
Definition w0 : float := lit 99232748 100000000.
Definition w1 : float := lit 383626 100000000.

Definition blur3 (at1 : Z -> float) (i : Z) : float :=
  PrimFloat.add (PrimFloat.add (PrimFloat.mul w1 (at1 (i - 1))) (PrimFloat.mul w0 (at1 i)))
                (PrimFloat.mul w1 (at1 (i + 1))).

Definition gaussian_03 (a : list (list Z)) (sigma : float) : matrix float :=
  let rows := Z.of_nat (length a) in
  let columns := Z.of_nat (length (hd [] a)) in
  let as_float := map (map (fun v => PrimFloat.div (float_of_Z v) (float_of_Z 255))) a in
  let at2 (m : matrix float) r c :=
    nth (Z.to_nat (nearest columns c)) (nth (Z.to_nat (nearest rows r)) m []) PrimFloat.zero in
  let along0 :=
    map (fun r => map (fun c => blur3 (fun i => at2 as_float i c) r) (Py.range 0 columns 1))
        (Py.range 0 rows 1) in
  map (fun r => map (fun c => blur3 (fun i => at2 along0 r i) c) (Py.range 0 columns 1))
      (Py.range 0 rows 1).

End Library.

(** ** The ratio test as the specification words it, over the reals *)

Module Ratio.

(** The Euclidean distance of two rows. *)
Definition dist (a b : list R) : R :=
  R_sqrt.sqrt
    (fold_right Rplus 0%R
       (map (fun p => ((fst p - snd p) * (fst p - snd p))%R) (combine a b))).

(** [d1] is the distance of [row] to row [j] of [f2], and no row of [f2] is
    nearer. *)
Definition smallest (row : list R) (f2 : matrix R) (j : nat) (d1 : R) : Prop :=
  (exists r, nth_error f2 j = Some r /\ d1 = dist row r) /\
  (forall k r, nth_error f2 k = Some r -> (d1 <= dist row r)%R).

(** [d2] is the distance of [row] to a row of [f2] other than row [j], and
    no row other than row [j] is nearer. *)
Definition second_smallest (row : list R) (f2 : matrix R) (j : nat) (d2 : R) : Prop :=
  (exists k r, k <> j /\ nth_error f2 k = Some r /\ d2 = dist row r) /\
  (forall k r, k <> j -> nth_error f2 k = Some r -> (d2 <= dist row r)%R).

(** [row] passes the ratio test with row [j] of [f2] as its nearest row,
    and [c] is the confidence [1 - d1/d2]. *)
Definition passes (row : list R) (f2 : matrix R) (j : nat) (c : R) : Prop :=
  exists d1 d2,
    smallest row f2 j d1 /\ second_smallest row f2 j d2 /\
    (d1 < 8 / 10 * d2)%R /\ c = (1 - d1 / d2)%R.

(** Row [i] of [f1] is matched to row [j] of [f2] with confidence [c]. *)
Definition accepted (f1 f2 : matrix R) (i j : nat) (c : R) : Prop :=
  exists row, nth_error f1 i = Some row /\ passes row f2 j c.

End Ratio.

Module MatchSample.

Definition f (n : Z) : float := float_of_Z n.

(** Two rows against three: row 0 is nearest to row 0 (distances 1, 5 and
    the root of 18), row 1 coincides with row 2. *)
Definition features1 : matrix float := [[f 0; f 0]; [f 3; f 3]].
Definition features2 : matrix float := [[f 0; f 1]; [f 3; f 4]; [f 3; f 3]].

(** One row at distance 1 of both candidates. *)
Definition tied1 : matrix float := [[f 0; f 0]].
Definition tied2 : matrix float := [[f 0; f 1]; [f 1; f 0]].

(** A single candidate. *)
Definition single2 : matrix float := [[f 0; f 1]].

End MatchSample.

Module RealSample.

(** One row against two, in real arithmetic. *)
Definition features1 : matrix R := [[0%R; 0%R]].
Definition features2 : matrix R := [[0%R; 1%R]; [3%R; 4%R]].

End RealSample.

(** ** Invariants of the descriptor blocks *)

Module Shape.
Section Shape.
Context {num : Type}.

(** A block is 4 x 4 x 8. *)
Definition block_shape (f : list (list (list num))) : Prop :=
  length f = 4%nat /\
  Forall (fun c => length c = 4%nat /\ Forall (fun h => length h = 8%nat) c) f.


End Shape.
End Shape.

Module FeatureSample.

(** The gradients of a horizontal ramp on a 4 x 4 image: [dx] is 1 and
    [dy] is 0 at every pixel. *)
Definition dx_ramp : matrix R := repeat (repeat 1%R 4%nat) 4%nat.
Definition dy_ramp : matrix R := repeat (repeat 0%R 4%nat) 4%nat.

(** Filters that return these gradients, whatever the image. *)
Definition ramp : list (list R) := repeat [0%R; 1%R; 2%R; 3%R] 4%nat.
Definition gaussian_id (image : list (list R)) (sigma : R) : matrix R := image.
Definition scharr_v_ramp (image : matrix R) : matrix R := dx_ramp.
Definition scharr_h_ramp (image : matrix R) : matrix R := dy_ramp.

(** The value 0.3 ** 0.8. *)
Definition ceiling : R := Rpower (3 / 10) (8 / 10).

End FeatureSample.

Module BorderSample.

(** A 32 x 32 image and one interest point whose first coordinate, 30, is
    within [feature_width / 2 = 8] of the far border 32. *)
Definition image : list (list Z) := repeat (repeat 0 32%nat) 32%nat.
Definition x : list Z := [30].
Definition y : list Z := [16].

(** Stand-ins for the filters; the run fails before any gradient is read. *)
Definition gaussian (image : list (list Z)) (sigma : R) : matrix R :=
  map (map IZR) image.
Definition scharr (image : matrix R) : matrix R := image.

End BorderSample.

Module CornerSample.

(** A 20 x 20 byte image: 200 on the rows and columns 8 to 19, else 0. *)
Definition image : list (list Z) :=
  map (fun r => map (fun c => if (8 <=? r) && (8 <=? c) then 200 else 0) (Py.range 0 20 1))
      (Py.range 0 20 1).

End CornerSample.

Module EdgeSample.

(** A 12 x 12 byte image of vertical stripes: the intensity depends on the
    column only, so its vertical derivative vanishes. *)
Definition image : list (list Z) :=
  repeat (map (fun c => 20 * c) (Py.range 0 12 1)) 12%nat.

(** The byte-to-real conversion alone, in place of the smoothing. *)
Definition as_real (a : list (list Z)) (sigma : R) : matrix R := map (map IZR) a.

End EdgeSample.

Module SelfSample.

(** Two distinct rows. *)
Definition features : matrix R := [[0%R; 0%R]; [0%R; 1%R]].

End SelfSample.

Module WideSample.

(** A 64 x 64 image and the point [(32, 32)], for [feature_width = 32]. *)
Definition image : list (list Z) := repeat (repeat 0 64%nat) 64%nat.
Definition x : list Z := [32].
Definition y : list Z := [32].

End WideSample.

Module OrderSample.

(** An 8 x 8 image and two points for [feature_width = 4]; the first
    coordinate of the first point exceeds that of the last by 4. *)
Definition image : list (list Z) := repeat (repeat 0 8%nat) 8%nat.
Definition x : list Z := [5; 1].
Definition y : list Z := [1; 1].

End OrderSample.

(** * Facts *)

(** ** Python helpers *)

Lemma in_range (start stop step y : Z) :
  0 < step ->
  In y (Py.range start stop step) <->
  start <= y < stop /\ (y - start) mod step = 0.
Proof.
  intros Hstep. unfold Py.range. rewrite in_map_iff. split.
  - intros [k [<- Hk]]. apply in_seq in Hk.
    assert (Hq : Z.of_nat k < (stop - start + step - 1) / step) by lia.
    assert (Hm : step * ((stop - start + step - 1) / step) <= stop - start + step - 1)
      by (apply Z.mul_div_le; lia).
    split; [nia|].
    replace (start + step * Z.of_nat k - start) with (Z.of_nat k * step) by ring.
    apply Z.mod_mul; lia.
  - intros [Hy Hmod]. exists (Z.to_nat ((y - start) / step)).
    assert (Hdiv : y - start = step * ((y - start) / step))
      by (apply Z.div_exact; lia).
    assert (0 <= (y - start) / step) by (apply Z.div_pos; lia).
    split; [rewrite Z2Nat.id by lia; lia|].
    apply in_seq. split; [lia|]. simpl.
    apply Z2Nat.inj_lt; [lia| |].
    + apply Z.div_pos; lia.
    + apply Z.lt_le_trans with ((y - start) / step + 1); [lia|].
      apply Z.div_le_lower_bound; lia.
Qed.

Lemma range_empty (start stop step : Z) :
  0 < step -> stop <= start -> Py.range start stop step = [].
Proof.
  intros Hstep Hle. unfold Py.range.
  replace (Z.to_nat ((stop - start + step - 1) / step)) with 0%nat; [reflexivity|].
  assert ((stop - start + step - 1) / step <= 0); [|lia].
  assert ((stop - start + step - 1) / step < 1); [|lia].
  apply Z.div_lt_upper_bound; lia.
Qed.

Lemma slice_inside {A : Type} (l : list A) (start len : Z) :
  0 <= start -> 0 <= len -> start + len <= Z.of_nat (length l) ->
  Py.slice l start (start + len) = firstn (Z.to_nat len) (skipn (Z.to_nat start) l) /\
  length (Py.slice l start (start + len)) = Z.to_nat len.
Proof.
  intros Hs Hl Hb. unfold Py.slice, Py.bound.
  destruct (start <? 0) eqn:E1; [apply Z.ltb_lt in E1; lia|].
  destruct (start + len <? 0) eqn:E2; [apply Z.ltb_lt in E2; lia|].
  rewrite !Z.min_l by lia.
  replace (start + len - start) with len by ring.
  split; [reflexivity|].
  rewrite length_firstn, length_skipn. lia.
Qed.

Lemma in_firstn {A : Type} (n : nat) (l : list A) (a : A) :
  In a (firstn n l) -> In a l.
Proof.
  intros Hin. rewrite <- (firstn_skipn n l). apply in_or_app. now left.
Qed.

Lemma in_skipn {A : Type} (n : nat) (l : list A) (a : A) :
  In a (skipn n l) -> In a l.
Proof.
  intros Hin. rewrite <- (firstn_skipn n l). apply in_or_app. now right.
Qed.

Lemma in_slice {A : Type} (l : list A) (start stop : Z) (a : A) :
  In a (Py.slice l start stop) -> In a l.
Proof.
  unfold Py.slice. intros Hin. apply in_firstn in Hin. now apply in_skipn in Hin.
Qed.

Lemma int_offset (feature_width : Z) :
  Py.int (inject_Z feature_width / 2 - 1)%Q = Z.quot (feature_width - 2) 2.
Proof.
  unfold Py.int. simpl. f_equal. lia.
Qed.

(** ** [get_interest_points] *)

Section DetectorFacts.
Context {num : Type} `{Arith num}.

Lemma combine_fst_snd {A B : Type} (l : list (A * B)) :
  combine (map fst l) (map snd l) = l.
Proof.
  induction l as [|[a b] l IH]; simpl; [reflexivity|]. now rewrite IH.
Qed.

Lemma in_harris_scan (dx2 dy2 dxy : matrix num) (rows columns fw px py : Z) :
  In (px, py) (Detector.harris_scan dx2 dy2 dxy rows columns fw) <->
  exists x y,
    (0 <= y < rows - fw /\ y mod 2 = 0) /\
    (0 <= x < columns - fw /\ x mod 2 = 0) /\
    ltb Detector.threshold (Detector.response dx2 dy2 dxy y x fw) = true /\
    px = x + Detector.offset fw /\ py = y + Detector.offset fw.
Proof.
  unfold Detector.harris_scan, Detector.stride. rewrite in_flat_map. split.
  - intros [y [Hy Hin]]. apply in_flat_map in Hin. destruct Hin as [x [Hx Hin]].
    apply in_range in Hy; [|lia]. apply in_range in Hx; [|lia].
    rewrite Z.sub_0_r in Hy, Hx.
    destruct (ltb _ _) eqn:E; simpl in Hin; [|contradiction].
    destruct Hin as [Hin|[]]. inversion Hin; subst.
    exists x, y. repeat split; try tauto; lia.
  - intros [x [y [Hy [Hx [HR [-> ->]]]]]].
    exists y. split; [apply in_range; [lia|]; rewrite Z.sub_0_r; exact Hy|].
    apply in_flat_map. exists x.
    split; [apply in_range; [lia|]; rewrite Z.sub_0_r; exact Hx|].
    rewrite HR. left. reflexivity.
Qed.

Lemma window_shape (m : matrix num) (rows columns fw y x : Z) :
  Z.of_nat (length m) = rows ->
  Forall (fun row => Z.of_nat (length row) = columns) m ->
  0 <= fw -> 0 <= y < rows - fw -> 0 <= x < columns - fw ->
  let w := Py.slice2 m y (y + fw + 1) x (x + fw + 1) in
  Z.of_nat (length w) = fw + 1 /\
  Forall (fun row => Z.of_nat (length row) = fw + 1) w.
Proof.
  intros Hrows Hcols Hfw Hy Hx w. subst w. unfold Py.slice2.
  replace (y + fw + 1) with (y + (fw + 1)) by ring.
  replace (x + fw + 1) with (x + (fw + 1)) by ring.
  destruct (slice_inside m y (fw + 1)) as [Heq Hlen]; try lia.
  split.
  - rewrite length_map, Hlen. lia.
  - apply Forall_forall. intros row Hin. apply in_map_iff in Hin.
    destruct Hin as [r [<- Hr]].
    assert (Hrm : In r m) by (eapply in_slice; exact Hr).
    rewrite Forall_forall in Hcols. specialize (Hcols r Hrm).
    destruct (slice_inside r x (fw + 1)) as [_ Hl]; lia.
Qed.

Variable pixel : Type.
Variable cv2_Sobel : list (list pixel) -> Z -> Z -> list (list Z).
Variable gaussian : list (list Z) -> num -> matrix num.

(** C1 (as amended).  A point [(px, py)] is returned by
    [get_interest_points] iff it comes from a scan position [(y, x)] --
    both multiples of the stride 2, below [rows - feature_width] and
    [columns - feature_width] -- whose Harris response
    [R = Sxx*Syy - Sxy*Sxy - 0.03*(Sxx+Syy)^2] strictly exceeds 0.005, where
    the three sums run over the slice
    [y:y+feature_width+1, x:x+feature_width+1], a square of side
    [feature_width + 1]; the point emitted is the corner of that square
    moved by [int(feature_width/2 - 1)] in both coordinates. *)
Theorem interest_point_iff (image : list (list pixel)) (feature_width px py : Z) :
  let rows := Z.of_nat (length image) in
  let columns := Z.of_nat (length (hd [] image)) in
  let dx := gaussian (cv2_Sobel image 1 0) (lit 3 10) in
  let dy := gaussian (cv2_Sobel image 0 1) (lit 3 10) in
  let dx2 := map (map square) dx in
  let dy2 := map (map square) dy in
  let dxy := Py.map2 (Py.map2 mul) dx dy in
  let S m y x :=
    np_sum (concat (Py.slice2 m y (y + feature_width + 1) x (x + feature_width + 1))) in
  let R y x :=
    sub (sub (mul (S dx2 y x) (S dy2 y x)) (mul (S dxy y x) (S dxy y x)))
        (mul (lit 3 100) (mul (add (S dx2 y x) (S dy2 y x)) (add (S dx2 y x) (S dy2 y x)))) in
  let r := Detector.get_interest_points pixel cv2_Sobel gaussian image feature_width in
  (In (px, py) (combine (fst r) (snd r)) <->
   exists x y,
     (0 <= y < rows - feature_width /\ y mod 2 = 0) /\
     (0 <= x < columns - feature_width /\ x mod 2 = 0) /\
     ltb (lit 5 1000) (R y x) = true /\
     px = x + Z.quot (feature_width - 2) 2 /\
     py = y + Z.quot (feature_width - 2) 2) /\
  (forall (m : matrix num) (y x : Z),
     Z.of_nat (length m) = rows ->
     Forall (fun row => Z.of_nat (length row) = columns) m ->
     0 <= feature_width ->
     0 <= y < rows - feature_width -> 0 <= x < columns - feature_width ->
     Z.of_nat (length (Py.slice2 m y (y + feature_width + 1) x (x + feature_width + 1)))
       = feature_width + 1 /\
     Forall (fun row => Z.of_nat (length row) = feature_width + 1)
            (Py.slice2 m y (y + feature_width + 1) x (x + feature_width + 1))).
Proof.
  intros rows columns dx dy dx2 dy2 dxy S R r. split.
  - subst r. unfold Detector.get_interest_points, Detector.harris_points. simpl.
    rewrite combine_fst_snd, in_harris_scan.
    unfold Detector.offset. rewrite int_offset. reflexivity.
  - intros m y x Hm Hc Hfw Hy Hx.
    exact (window_shape m rows columns feature_width y x Hm Hc Hfw Hy Hx).
Qed.

(** C7.  [get_interest_points] returns two arrays of equal length, and
    when [feature_width] is at least the image height or the image width
    a scan range is empty and both arrays are empty. *)
Theorem interest_points_lengths (image : list (list pixel)) (feature_width : Z) :
  let rows := Z.of_nat (length image) in
  let columns := Z.of_nat (length (hd [] image)) in
  let r := Detector.get_interest_points pixel cv2_Sobel gaussian image feature_width in
  length (fst r) = length (snd r) /\
  (feature_width >= rows \/ feature_width >= columns ->
   (Py.range 0 (rows - feature_width) Detector.stride = [] \/
    Py.range 0 (columns - feature_width) Detector.stride = []) /\
   r = ([], [])).
Proof.
  intros rows columns r. subst r.
  unfold Detector.get_interest_points, Detector.harris_points. simpl. split.
  - now rewrite !length_map.
  - fold rows columns. unfold Detector.harris_scan, Detector.stride.
    intros [Hr|Hc].
    + rewrite (range_empty 0 (rows - feature_width) 2) by lia.
      split; [left|]; reflexivity.
    + rewrite (range_empty 0 (columns - feature_width) 2) by lia.
      split; [right; reflexivity|].
      induction (Py.range 0 (rows - feature_width) 2); simpl; auto.
Qed.

End DetectorFacts.

(** C1 (as the specification words it) fails.  On the gradients
    [Sample.dx_4x4], [Sample.dy_4x4] with [feature_width = 2] the only scan
    position is [(0, 0)].  The code sums over rows and columns 0..2, finds
    [R = 0.055] and returns the point [(0, 0)], the corner itself; over the
    window of side 2 every sum is 0, so the detector of the specification
    returns nothing (and would have placed the point at [(1, 1)]). *)
Lemma window_side_counterexample :
  Detector.harris_points Sample.dx_4x4 Sample.dy_4x4 4 4 2 = ([0], [0]) /\
  Claimed.harris_points Sample.dx_4x4 Sample.dy_4x4 4 4 2 = ([], []) /\
  Detector.response (map (map square) Sample.dx_4x4) (map (map square) Sample.dy_4x4)
    (Py.map2 (Py.map2 mul) Sample.dx_4x4 Sample.dy_4x4) 0 0 2 = lit 55 1000.
Proof.
  vm_compute. repeat split.
Qed.

(** C9.  On a 20 x 20 image of one intensity, [get_interest_points] with
    [feature_width = 8] returns two empty arrays, for every Sobel filter
    that is zero on that image and every smoothing that maps the zero array
    to the zero array: each window sum is 0, so [R = 0], which does not
    exceed 0.005.  The arithmetic is binary64. *)
Theorem flat_image_no_interest_points
    (pixel : Type)
    (cv2_Sobel : list (list pixel) -> Z -> Z -> list (list Z))
    (gaussian : list (list Z) -> float -> matrix float)
    (c : pixel) :
  let image := repeat (repeat c 20%nat) 20%nat in
  let flat := repeat (repeat 0 20%nat) 20%nat in
  cv2_Sobel image 1 0 = flat ->
  cv2_Sobel image 0 1 = flat ->
  gaussian flat (lit 3 10) = repeat (repeat zero 20%nat) 20%nat ->
  Detector.get_interest_points pixel cv2_Sobel gaussian image 8 = ([], []).
Proof.
  intros image flat Hx Hy Hg.
  unfold Detector.get_interest_points. rewrite Hx, Hy, Hg.
  vm_compute. reflexivity.
Qed.

Lemma flat_image_no_interest_points_witness :
  Detector.get_interest_points Z Library.Sobel5 Library.gaussian_03
    (repeat (repeat 100 20%nat) 20%nat) 8 = ([], []).
Proof.
  apply (flat_image_no_interest_points Z Library.Sobel5 Library.gaussian_03 100);
    vm_compute; reflexivity.
Defined.

(** ** [match_features], for every arithmetic *)

Lemma mapM_length {A B : Type} (f : A -> result B) (l : list A) (bs : list B) :
  mapM f l = Ok bs -> length bs = length l.
Proof.
  revert bs. induction l as [|a l IH]; simpl; intros bs Hm.
  - inversion Hm. reflexivity.
  - destruct (f a) as [b|e]; simpl in Hm; [|discriminate].
    destruct (mapM f l) as [bs'|e]; simpl in Hm; [|discriminate].
    inversion Hm. simpl. now rewrite (IH bs').
Qed.

Lemma mapM_pure {A B : Type} (f : A -> result B) (g : A -> B) (l : list A) :
  (forall a, In a l -> f a = Ok (g a)) -> mapM f l = Ok (map g l).
Proof.
  induction l as [|a l IH]; simpl; intros Hf; [reflexivity|].
  rewrite (Hf a) by now left. simpl.
  rewrite IH by (intros; apply Hf; now right). reflexivity.
Qed.

Lemma index_ok {A : Type} (l : list A) (i : nat) (a : A) :
  Py.index l i = Ok a <-> nth_error l i = Some a.
Proof.
  unfold Py.index. destruct (nth_error l i); split; intros Hi;
    inversion Hi; reflexivity.
Qed.

Section MatcherFacts.
Context {num : Type} `{Arith num}.

Lemma match_row_some (i : nat) (row : list num) (f2 : matrix num)
    (m : nat * nat) (c : num) :
  Matcher.match_row i row f2 = Ok (Some (m, c)) ->
  fst m = i /\ (snd m < length f2)%nat.
Proof.
  unfold Matcher.match_row. intros Hrow.
  destruct (Matcher.distances row f2) as [d|e] eqn:Hd; simpl in Hrow; [|discriminate].
  apply mapM_length in Hd.
  destruct (Py.index (Matcher.argsort d) 0) as [s0|e]; simpl in Hrow; [|discriminate].
  destruct (Py.index d s0) as [d1|e] eqn:H1; simpl in Hrow; [|discriminate].
  destruct (Py.index (Matcher.argsort d) 1) as [s1|e]; simpl in Hrow; [|discriminate].
  destruct (Py.index d s1) as [d2|e]; simpl in Hrow; [|discriminate].
  destruct (ltb d1 _); inversion Hrow; subst; simpl.
  split; [reflexivity|].
  apply index_ok in H1. rewrite <- Hd. apply nth_error_Some. congruence.
Qed.

(** What the loop keeps: one confidence per match, matches in increasing
    order of their first index. *)
Lemma match_loop_invariant (f2 : matrix num) (f1 : matrix num) (i : nat)
    (acc : list (nat * nat) * list num) :
  Matcher.match_loop i f1 f2 = Ok acc ->
  length (fst acc) = length (snd acc) /\
  (length (fst acc) <= length f1)%nat /\
  Forall (fun m => (i <= fst m < i + length f1)%nat /\ (snd m < length f2)%nat) (fst acc) /\
  NoDup (map fst (fst acc)).
Proof.
  revert i acc. induction f1 as [|row rest IH]; simpl; intros i acc Hl.
  - inversion Hl; subst; simpl. repeat split; auto; constructor.
  - destruct (Matcher.match_row i row f2) as [r|e] eqn:Hr; simpl in Hl; [|discriminate].
    destruct (Matcher.match_loop (S i) rest f2) as [acc'|e] eqn:Hrest; simpl in Hl;
      [|discriminate].
    destruct (IH (S i) acc' Hrest) as [Hlen [Hle [Hall Hnd]]].
    assert (Hall' : Forall (fun m => (i <= fst m < i + S (length rest))%nat /\
                                     (snd m < length f2)%nat) (fst acc')).
    { eapply Forall_impl; [|exact Hall]. simpl. intros m Hm. lia. }
    destruct r as [[m c]|]; inversion Hl; subst; simpl.
    + destruct (match_row_some i row f2 m c Hr) as [Hm1 Hm2].
      repeat split; try lia.
      * constructor; [lia|exact Hall'].
      * constructor; [|exact Hnd].
        intros Hin. apply in_map_iff in Hin. destruct Hin as [m' [Heq Hin]].
        rewrite Forall_forall in Hall. specialize (Hall m' Hin). lia.
    + repeat split; try lia; assumption.
Qed.

(** C5.  When [match_features] returns, the matches are at most as many
    as the rows of [im1_features], their first entries are pairwise
    distinct and index [im1_features], their second entries index
    [im2_features], and there is one confidence per match. *)
Theorem matches_well_formed (im1_features im2_features : matrix num)
    (matches : list (nat * nat)) (confidences : list num) :
  Matcher.match_features im1_features im2_features = Ok (matches, confidences) ->
  (length matches <= length im1_features)%nat /\
  NoDup (map fst matches) /\
  Forall (fun m => (fst m < length im1_features)%nat) matches /\
  Forall (fun m => (snd m < length im2_features)%nat) matches /\
  length confidences = length matches.
Proof.
  unfold Matcher.match_features. intros Hm.
  destruct (Matcher.match_loop 0 im1_features im2_features) as [acc|e] eqn:Hl;
    simpl in Hm; [|discriminate].
  destruct (Matcher.np_min _) as [lowest|e]; simpl in Hm; [|discriminate].
  inversion Hm; subst.
  destruct (match_loop_invariant _ _ _ _ Hl) as [Hlen [Hle [Hall Hnd]]].
  repeat split; try assumption.
  - eapply Forall_impl; [|exact Hall]. simpl. intros m Hb. lia.
  - eapply Forall_impl; [|exact Hall]. simpl. intros m Hb. lia.
  - rewrite length_map. symmetry. exact Hlen.
Qed.

Lemma match_loop_none (f2 : matrix num) (f1 : matrix num) (i : nat) :
  (forall k row, In row f1 -> Matcher.match_row k row f2 = Ok None) ->
  Matcher.match_loop i f1 f2 = Ok ([], []).
Proof.
  revert i. induction f1 as [|row rest IH]; simpl; intros i Hnone; [reflexivity|].
  rewrite (Hnone i row) by now left. simpl.
  rewrite IH by (intros; apply Hnone; now right). reflexivity.
Qed.

(** C6.  When no row of [im1_features] passes the ratio test,
    [match_features] raises: the minimum of line 244 is taken over an
    empty array.  It does not return a pair of empty arrays. *)
Theorem no_match_raises (im1_features im2_features : matrix num) :
  (forall i row, In row im1_features ->
                 Matcher.match_row i row im2_features = Ok None) ->
  Matcher.match_loop 0 im1_features im2_features = Ok ([], []) /\
  Matcher.match_features im1_features im2_features = Raise ValueError.
Proof.
  intros Hnone. pose proof (match_loop_none _ _ 0%nat Hnone) as Hl.
  split; [exact Hl|]. unfold Matcher.match_features. now rewrite Hl.
Qed.

(** C8.  With exactly one row in [im2_features], [match_features] does
    not return: for the first row of [im1_features] the index
    [sorted_distances[1]] is out of range (an [IndexError], unless the
    subtraction of line 233 already failed to broadcast); without any row
    in [im1_features] the minimum of line 244 is taken over an empty
    array. *)
Theorem single_candidate_raises (im1_features im2_features : matrix num) :
  length im2_features = 1%nat ->
  (exists e, Matcher.match_features im1_features im2_features = Raise e) /\
  (forall row rest d,
      im1_features = row :: rest ->
      Matcher.distances row im2_features = Ok d ->
      Matcher.match_features im1_features im2_features = Raise IndexError) /\
  (im1_features = [] ->
   Matcher.match_features im1_features im2_features = Raise ValueError).
Proof.
  intros Hone.
  assert (Hrow : forall row rest d,
             im1_features = row :: rest ->
             Matcher.distances row im2_features = Ok d ->
             Matcher.match_features im1_features im2_features = Raise IndexError).
  { intros row rest d -> Hd.
    unfold Matcher.match_features. simpl. unfold Matcher.match_row. rewrite Hd. simpl.
    pose proof (mapM_length _ _ _ Hd) as Hlen. rewrite Hone in Hlen.
    destruct d as [|d0 [|d1 d]]; try discriminate. reflexivity. }
  split; [|split].
  - destruct im1_features as [|row rest]; [eexists; reflexivity|].
    destruct (Matcher.distances row im2_features) as [d|e] eqn:Hd.
    + exists IndexError. eapply Hrow; [reflexivity|exact Hd].
    + exists e. unfold Matcher.match_features. simpl.
      unfold Matcher.match_row. rewrite Hd. reflexivity.
  - exact Hrow.
  - intros ->. reflexivity.
Qed.

End MatcherFacts.

Lemma matches_well_formed_witness :
  exists matches confidences,
    Matcher.match_features MatchSample.features1 MatchSample.features2
      = Ok (matches, confidences) /\
    matches = [(0%nat, 0%nat); (1%nat, 2%nat)] /\
    ((length matches <= length MatchSample.features1)%nat /\
     NoDup (map fst matches) /\
     Forall (fun m => (fst m < length MatchSample.features1)%nat) matches /\
     Forall (fun m => (snd m < length MatchSample.features2)%nat) matches /\
     length confidences = length matches).
Proof.
  eexists. eexists. split; [vm_compute; reflexivity|].
  split; [reflexivity|].
  apply (matches_well_formed MatchSample.features1 MatchSample.features2).
  vm_compute. reflexivity.
Defined.

Lemma no_match_raises_witness :
  Matcher.match_loop 0 MatchSample.tied1 MatchSample.tied2 = Ok ([], []) /\
  Matcher.match_features MatchSample.tied1 MatchSample.tied2 = Raise ValueError.
Proof.
  apply (no_match_raises MatchSample.tied1 MatchSample.tied2).
  intros i row [<-|[]]. vm_compute. reflexivity.
Defined.

Lemma single_candidate_raises_witness :
  Matcher.match_features MatchSample.features1 MatchSample.single2 = Raise IndexError.
Proof.
  destruct (single_candidate_raises MatchSample.features1 MatchSample.single2 eq_refl)
    as [_ [Hrow _]].
  eapply Hrow; [reflexivity|]. vm_compute. reflexivity.
Defined.

(** ** [match_features] over the reals *)

Lemma insert_permutation {num : Type} `{Arith num} (p : nat * num) (l : list (nat * num)) :
  Permutation (Matcher.insert p l) (p :: l).
Proof.
  induction l as [|q l IH]; simpl; [apply Permutation_refl|].
  destruct (Matcher.sort_le (snd p) (snd q)); [apply Permutation_refl|].
  eapply perm_trans; [apply perm_skip; exact IH|apply perm_swap].
Qed.

Lemma sort_permutation {num : Type} `{Arith num} (l : list (nat * num)) :
  Permutation (fold_right Matcher.insert [] l) l.
Proof.
  induction l as [|p l IH]; simpl; [constructor|].
  eapply perm_trans; [apply insert_permutation|apply perm_skip; exact IH].
Qed.

Lemma in_combine_seq {A : Type} (d : list A) (s k : nat) (v : A) :
  In (k, v) (combine (seq s (length d)) d) <->
  (s <= k)%nat /\ nth_error d (k - s) = Some v.
Proof.
  revert s. induction d as [|a d IH]; simpl; intros s.
  - split; [contradiction|]. intros [_ Hn]. destruct (k - s)%nat; discriminate.
  - rewrite IH. split.
    + intros [Heq|[Hle Hn]].
      * inversion Heq; subst. rewrite Nat.sub_diag. split; [lia|reflexivity].
      * split; [lia|]. replace (k - s)%nat with (S (k - S s)) by lia. exact Hn.
    + intros [Hle Hn]. destruct (k - s)%nat as [|n] eqn:E.
      * left. inversion Hn; subst. f_equal. lia.
      * right. split; [lia|]. replace (k - S s)%nat with n by lia. exact Hn.
Qed.

Lemma map_fst_combine_seq {A : Type} (d : list A) (s : nat) :
  map fst (combine (seq s (length d)) d) = seq s (length d).
Proof.
  revert s. induction d as [|a d IH]; simpl; intros s; [reflexivity|].
  now rewrite IH.
Qed.

Section RatioFacts.
Local Open Scope R_scope.

Lemma fold_left_Rplus (l : list R) (a : R) :
  fold_left Rplus l a = a + fold_right Rplus 0 l.
Proof.
  revert a. induction l as [|b l IH]; simpl; intros a; [lra|]. rewrite IH. lra.
Qed.

Lemma np_sum_real (l : list R) : np_sum l = fold_right Rplus 0 l.
Proof.
  change (np_sum l) with (fold_left Rplus l 0). rewrite fold_left_Rplus. lra.
Qed.

Lemma distances_real (row : list R) (f2 : matrix R) (D : nat) :
  length row = D -> Forall (fun r => length r = D) f2 ->
  Matcher.distances row f2 = Ok (map (Ratio.dist row) f2).
Proof.
  intros Hrow Hf2. unfold Matcher.distances. apply mapM_pure.
  intros r Hin. rewrite Forall_forall in Hf2. specialize (Hf2 r Hin).
  unfold Matcher.broadcast_sub. rewrite Hrow, Hf2, Nat.eqb_refl. simpl.
  unfold Ratio.dist. rewrite np_sum_real. unfold Py.map2. rewrite map_map.
  reflexivity.
Qed.

Lemma dist_nonneg (a b : list R) : 0 <= Ratio.dist a b.
Proof. unfold Ratio.dist. apply sqrt_pos. Qed.

Lemma sort_le_real (a b : R) : Matcher.sort_le a b = true <-> a <= b.
Proof.
  unfold Matcher.sort_le. simpl. unfold Rleb.
  destruct (Rle_dec a b); split; intros Hs; auto; discriminate.
Qed.

Lemma insert_sorted (p : nat * R) (l : list (nat * R)) :
  StronglySorted (fun u v => snd u <= snd v) l ->
  StronglySorted (fun u v => snd u <= snd v) (Matcher.insert p l).
Proof.
  induction l as [|q l IH]; simpl; intros Hs.
  - constructor; constructor.
  - inversion Hs as [|? ? Hs' Hq]; subst.
    destruct (Matcher.sort_le (snd p) (snd q)) eqn:E.
    + apply sort_le_real in E. constructor; [exact Hs|].
      constructor; [exact E|].
      eapply Forall_impl; [|exact Hq]. simpl. intros u Hu. lra.
    + assert (Hqp : snd q <= snd p).
      { destruct (Rle_dec (snd p) (snd q)) as [Hle|Hnle].
        - apply sort_le_real in Hle. congruence.
        - lra. }
      constructor; [apply IH; exact Hs'|].
      eapply Permutation_Forall; [apply Permutation_sym, insert_permutation|].
      constructor; assumption.
Qed.

Lemma sort_sorted (l : list (nat * R)) :
  StronglySorted (fun u v => snd u <= snd v) (fold_right Matcher.insert [] l).
Proof.
  induction l as [|p l IH]; simpl; [constructor|]. apply insert_sorted. exact IH.
Qed.

(** The two leading entries of [np.argsort(d)]: the index of a smallest
    entry, and the index of a smallest entry among the others. *)
Lemma argsort_top2 (d : list R) :
  (2 <= length d)%nat ->
  exists s0 s1 d1 d2 rest,
    Matcher.argsort d = s0 :: s1 :: rest /\
    nth_error d s0 = Some d1 /\ nth_error d s1 = Some d2 /\ s0 <> s1 /\
    (forall k v, nth_error d k = Some v -> d1 <= v) /\
    (forall k v, k <> s0 -> nth_error d k = Some v -> d2 <= v).
Proof.
  intros Hlen. unfold Matcher.argsort.
  pose proof (sort_permutation (combine (seq 0 (length d)) d)) as Hperm.
  pose proof (sort_sorted (combine (seq 0 (length d)) d)) as Hsorted.
  assert (Hnd : NoDup (map fst (fold_right Matcher.insert [] (combine (seq 0 (length d)) d)))).
  { eapply Permutation_NoDup.
    - apply Permutation_sym, Permutation_map. exact Hperm.
    - rewrite map_fst_combine_seq. apply seq_NoDup. }
  assert (Hin : forall k v,
             nth_error d k = Some v <->
             In (k, v) (fold_right Matcher.insert [] (combine (seq 0 (length d)) d))).
  { intros k v. split; intros Hk.
    - eapply Permutation_in; [apply Permutation_sym; exact Hperm|].
      apply in_combine_seq. split; [lia|]. now rewrite Nat.sub_0_r.
    - eapply Permutation_in in Hk; [|exact Hperm].
      apply in_combine_seq in Hk. destruct Hk as [_ Hk]. now rewrite Nat.sub_0_r in Hk. }
  pose proof (Permutation_length Hperm) as Hl.
  rewrite length_combine, length_seq, Nat.min_id in Hl.
  destruct (fold_right Matcher.insert [] (combine (seq 0 (length d)) d))
    as [|[s0 d1] [|[s1 d2] rest]]; simpl in Hl; try lia.
  exists s0, s1, d1, d2, (map fst rest). simpl.
  inversion Hsorted as [|? ? Hs1 H0]; subst.
  inversion Hs1 as [|? ? Hs2 H1]; subst.
  inversion Hnd as [|? ? Hnot _]; subst.
  repeat split.
  - apply Hin. now left.
  - apply Hin. right. now left.
  - intros ->. apply Hnot. now left.
  - intros k v Hk. apply Hin in Hk. destruct Hk as [Hk|Hk].
    + inversion Hk; subst. lra.
    + rewrite Forall_forall in H0. exact (H0 _ Hk).
  - intros k v Hne Hk. apply Hin in Hk. destruct Hk as [Hk|[Hk|Hk]].
    + inversion Hk; subst. contradiction.
    + inversion Hk; subst. lra.
    + rewrite Forall_forall in H1. exact (H1 _ Hk).
Qed.

Lemma match_row_real (i : nat) (row : list R) (f2 : matrix R) (D : nat) :
  length row = D -> Forall (fun r => length r = D) f2 -> (2 <= length f2)%nat ->
  exists r,
    Matcher.match_row i row f2 = Ok r /\
    (forall m c, r = Some (m, c) -> 0 <= c <= 1) /\
    (forall a j c, r = Some ((a, j), c) <-> a = i /\ Ratio.passes row f2 j c).
Proof.
  intros Hrow Hf2 Hlen. unfold Matcher.match_row.
  rewrite (distances_real row f2 D Hrow Hf2). simpl.
  assert (Hnth : forall k v,
             nth_error (map (Ratio.dist row) f2) k = Some v <->
             exists r, nth_error f2 k = Some r /\ v = Ratio.dist row r).
  { intros k v. rewrite nth_error_map. destruct (nth_error f2 k) as [r|]; simpl.
    - split; [intros Hv; inversion Hv; eauto|].
      intros [r' [Hr ->]]. inversion Hr. reflexivity.
    - split; [discriminate|]. intros [r' [Hr _]]. discriminate. }
  destruct (argsort_top2 (map (Ratio.dist row) f2)) as
      [s0 [s1 [d1 [d2 [rest [Hsort [H0 [H1 [Hne [Hmin Hmin2]]]]]]]]]];
    [now rewrite length_map|].
  rewrite Hsort. unfold Py.index. simpl. rewrite H0. simpl. rewrite H1. simpl.
  assert (Hd1 : 0 <= d1).
  { apply Hnth in H0. destruct H0 as [r [_ ->]]. apply dist_nonneg. }
  assert (Hsm : Ratio.smallest row f2 s0 d1).
  { split; [apply Hnth; exact H0|].
    intros k r Hk. apply (Hmin k). apply Hnth. eauto. }
  assert (Hsm2 : Ratio.second_smallest row f2 s0 d2).
  { split.
    - apply Hnth in H1. destruct H1 as [r [Hr ->]]. exists s1, r. auto.
    - intros k r Hk Hr. apply (Hmin2 k); [exact Hk|]. apply Hnth. eauto. }
  unfold Rltb. destruct (Rlt_dec d1 (8 / 10 * d2)) as [Hlt|Hnlt].
  - eexists. split; [reflexivity|]. split.
    + intros m c Hmc. inversion Hmc; subst.
      assert (Hd2 : 0 < d2) by lra.
      assert (Hq : d1 / d2 * d2 = d1) by (field; lra).
      assert (0 <= d1 / d2) by (apply Rle_mult_inv_pos; assumption).
      assert (d1 / d2 < 1) by nra.
      lra.
    + intros a j c. split.
      * intros Hmc. inversion Hmc; subst. split; [reflexivity|].
        exists d1, d2. auto.
      * intros [-> [e1 [e2 [[[r [Hr He1]] He1min] [[[k [r2 [Hk [Hr2 He2]]]] He2min] [Hlt' ->]]]]]].
        assert (He1d1 : e1 = d1).
        { apply Rle_antisym.
          - apply Hnth in H0. destruct H0 as [r0 [Hr0 ->]]. exact (He1min _ _ Hr0).
          - apply (Hmin j). apply Hnth. eauto. }
        assert (Hj : j = s0).
        { destruct (Nat.eq_dec j s0) as [Heq|Hneq]; [exact Heq|exfalso].
          apply Hnth in H0. destruct H0 as [r0 [Hr0 Hd1r0]].
          assert (e2 <= d1) by (rewrite Hd1r0; apply (He2min s0); auto).
          lra. }
        subst j.
        assert (He2d2 : e2 = d2).
        { apply Rle_antisym.
          - apply Hnth in H1. destruct H1 as [r1 [Hr1 ->]].
            apply (He2min s1); auto.
          - rewrite He2. apply (Hmin2 k); [exact Hk|]. apply Hnth. eauto. }
        subst. reflexivity.
  - eexists. split; [reflexivity|]. split; [discriminate|].
    intros a j c. split; [discriminate|].
    intros [-> [e1 [e2 [[[r [Hr He1]] He1min] [[[k [r2 [Hk [Hr2 He2]]]] He2min] [Hlt' ->]]]]]].
    exfalso.
    assert (He1d1 : e1 = d1).
    { apply Rle_antisym.
      - apply Hnth in H0. destruct H0 as [r0 [Hr0 ->]]. exact (He1min _ _ Hr0).
      - apply (Hmin j). apply Hnth. eauto. }
    destruct (Nat.eq_dec j s0) as [Heq|Hneq].
    + subst j.
      assert (He2d2 : e2 = d2).
      { apply Rle_antisym.
        - apply Hnth in H1. destruct H1 as [r1 [Hr1 ->]].
          apply (He2min s1); auto.
        - rewrite He2. apply (Hmin2 k); [exact Hk|]. apply Hnth. eauto. }
      subst. contradiction.
    + apply Hnth in H0. destruct H0 as [r0 [Hr0 Hd1r0]].
      assert (e2 <= d1) by (rewrite Hd1r0; apply (He2min s0); auto).
      lra.
Qed.

Lemma match_loop_real (f2 : matrix R) (D : nat) (f1 : matrix R) (i : nat) :
  Forall (fun r => length r = D) f1 -> Forall (fun r => length r = D) f2 ->
  (2 <= length f2)%nat ->
  exists ms cs,
    Matcher.match_loop i f1 f2 = Ok (ms, cs) /\
    length ms = length cs /\
    Forall (fun c => 0 <= c <= 1) cs /\
    (forall a j c,
        In ((a, j), c) (combine ms cs) <->
        (i <= a)%nat /\ Ratio.accepted f1 f2 (a - i) j c).
Proof.
  intros Hf1 Hf2 Hlen. revert i.
  induction f1 as [|row rest IH]; intros i.
  - exists [], []. simpl. repeat split; auto; try contradiction.
    intros [_ [r [Hr _]]]. destruct (a - i)%nat; discriminate.
  - inversion Hf1 as [|? ? Hrow Hrest]; subst.
    destruct (match_row_real i row f2 (length row) eq_refl Hf2 Hlen)
      as [r [Hr [Hbound Hiff]]].
    destruct (IH Hrest (S i)) as [ms [cs [Hl [Hlc [Hall Hin]]]]].
    assert (Hlater : forall a j c,
               (S i <= a)%nat /\ Ratio.accepted rest f2 (a - S i) j c <->
               (i < a)%nat /\ Ratio.accepted (row :: rest) f2 (a - i) j c).
    { intros a j c. unfold Ratio.accepted. split; intros [Ha [r' [Hr' Hp]]].
      - split; [lia|]. exists r'. split; [|exact Hp].
        replace (a - i)%nat with (S (a - S i)) by lia. exact Hr'.
      - split; [lia|]. exists r'. split; [|exact Hp].
        replace (a - i)%nat with (S (a - S i)) in Hr' by lia. exact Hr'. }
    assert (Hfirst : forall j c,
               Ratio.accepted (row :: rest) f2 (i - i) j c <-> Ratio.passes row f2 j c).
    { intros j c. rewrite Nat.sub_diag. unfold Ratio.accepted. simpl. split.
      - intros [r' [Hr' Hp]]. inversion Hr'; subst. exact Hp.
      - intros Hp. exists row. auto. }
    simpl. rewrite Hr, Hl. simpl.
    destruct r as [[[a0 j0] c0]|]; simpl.
    + exists ((a0, j0) :: ms), (c0 :: cs). split; [reflexivity|].
      split; [simpl; lia|].
      split; [constructor; [exact (Hbound _ _ eq_refl)|exact Hall]|].
      intros a j c. simpl. rewrite Hin, Hlater. split.
      * intros [Heq|[Ha Hacc]]; [|split; [lia|exact Hacc]].
        inversion Heq; subst.
        destruct (proj1 (Hiff a j c) eq_refl) as [-> Hp].
        split; [lia|]. apply Hfirst. exact Hp.
      * intros [Ha Hacc]. destruct (Nat.eq_dec a i) as [->|Hne].
        -- left. apply Hfirst in Hacc.
           assert (Hs : Some (a0, j0, c0) = Some (i, j, c)) by (apply Hiff; auto).
           inversion Hs. reflexivity.
        -- right. split; [lia|exact Hacc].
    + exists ms, cs. split; [reflexivity|]. split; [exact Hlc|]. split; [exact Hall|].
      intros a j c. rewrite Hin, Hlater. split.
      * intros [Ha Hacc]. split; [lia|exact Hacc].
      * intros [Ha Hacc]. destruct (Nat.eq_dec a i) as [->|Hne].
        -- apply Hfirst in Hacc.
           assert (Hs : @None (nat * nat * R) = Some (i, j, c)) by (apply Hiff; auto).
           discriminate.
        -- split; [lia|exact Hacc].
Qed.

Lemma filter_not_nan (cs : list R) : filter (fun c => negb (isnan c)) cs = cs.
Proof.
  induction cs as [|c cs IH]; simpl; [reflexivity|]. f_equal. exact IH.
Qed.



End RatioFacts.

(** ** [get_features], for every arithmetic *)

Lemma set_nth_length {A : Type} (l : list A) (n : nat) (v : A) :
  length (Descriptor.set_nth l n v) = length l.
Proof.
  revert n. induction l as [|a l IH]; intros [|n]; simpl; auto.
Qed.

Lemma set_nth_Forall {A : Type} (P : A -> Prop) (l : list A) (n : nat) (v : A) :
  Forall P l -> P v -> Forall P (Descriptor.set_nth l n v).
Proof.
  intros Hl Hv. revert n. induction Hl as [|a l Ha Hl IH]; intros [|n]; simpl;
    constructor; auto.
Qed.

Lemma nth_Forall {A : Type} (P : A -> Prop) (l : list A) (n : nat) (d : A) :
  Forall P l -> P d -> P (nth n l d).
Proof.
  intros Hl Hd. revert n. induction Hl as [|a l Ha Hl IH]; intros [|n]; simpl; auto.
Qed.

Lemma mapM_Forall {A B : Type} (f : A -> result B) (P : B -> Prop) (l : list A)
    (bs : list B) :
  (forall a b, In a l -> f a = Ok b -> P b) -> mapM f l = Ok bs -> Forall P bs.
Proof.
  revert bs. induction l as [|a l IH]; simpl; intros bs Hf Hm.
  - inversion Hm. constructor.
  - destruct (f a) as [b|e] eqn:Hb; simpl in Hm; [|discriminate].
    destruct (mapM f l) as [bs'|e]; simpl in Hm; [|discriminate].
    inversion Hm; subst. constructor; [apply (Hf a); [now left|exact Hb]|].
    apply IH; [|reflexivity]. intros a' b' Hin. apply Hf. now right.
Qed.

Lemma in_slice2 {A : Type} (m : list (list A)) (r0 r1 c0 c1 : Z) (a : A) :
  In a (concat (Py.slice2 m r0 r1 c0 c1)) -> In a (concat m).
Proof.
  unfold Py.slice2. rewrite !in_concat. intros [row [Hrow Ha]].
  apply in_map_iff in Hrow. destruct Hrow as [r [<- Hr]].
  exists r. split; [eapply in_slice; exact Hr|eapply in_slice; exact Ha].
Qed.

Section DescriptorFacts.
Context {num : Type} `{Arith num} `{Transcendental num}.

Lemma histogram_length (a w : list num) : length (Descriptor.histogram a w) = 8%nat.
Proof. unfold Descriptor.histogram. rewrite length_map. reflexivity. Qed.

Lemma zero_block_shape : Shape.block_shape (Descriptor.zero_block (num:=num)).
Proof.
  split; [reflexivity|]. repeat constructor.
Qed.

Lemma set_cell_shape (f f' : Descriptor.block) (i j : Z) (h : list num) :
  Shape.block_shape f -> length h = 8%nat ->
  Descriptor.set_cell f i j h = Ok f' -> Shape.block_shape f'.
Proof.
  intros [Hlen Hall] Hh. unfold Descriptor.set_cell.
  destruct (i <? 4) eqn:Hi; simpl; [|discriminate].
  destruct (j <? 4); [|discriminate].
  intros Hset. inversion Hset; subst. apply Z.ltb_lt in Hi.
  assert (Hin : In (nth (Z.to_nat i) f []) f) by (apply nth_In; lia).
  split.
  - now rewrite set_nth_length.
  - apply set_nth_Forall; [exact Hall|].
    rewrite Forall_forall in Hall. destruct (Hall _ Hin) as [Hl4 Hl8].
    split; [now rewrite set_nth_length|].
    apply set_nth_Forall; assumption.
Qed.


(** What holds of the empty block and is kept by every assignment of a
    histogram holds of the block of an interest point. *)
Lemma fill_cells_invariant (Inv : Descriptor.block -> Prop)
    (grad_w theta_w : matrix num) (fw : Z) (f : Descriptor.block) :
  Inv Descriptor.zero_block ->
  (forall g g' i j,
      Inv g ->
      Descriptor.set_cell g i j
        (Descriptor.histogram (Descriptor.cell theta_w i j fw) (Descriptor.cell grad_w i j fw))
        = Ok g' ->
      Inv g') ->
  Descriptor.fill_cells grad_w theta_w fw = Ok f -> Inv f.
Proof.
  intros Hzero Hstep. unfold Descriptor.fill_cells.
  generalize (list_prod (Py.range 0 (Py.int (inject_Z fw / 4)) 1)
                        (Py.range 0 (Py.int (inject_Z fw / 4)) 1)).
  intros cells. revert f.
  assert (Hgen : forall (acc : result Descriptor.block),
             (forall g, acc = Ok g -> Inv g) ->
             forall f,
               fold_left (fun acc ij =>
                 f <- acc ;;
                 Descriptor.set_cell f (fst ij) (snd ij)
                   (Descriptor.histogram (Descriptor.cell theta_w (fst ij) (snd ij) fw)
                                         (Descriptor.cell grad_w (fst ij) (snd ij) fw)))
                 cells acc = Ok f -> Inv f).
  { induction cells as [|ij cells IH]; simpl; intros acc Hacc f Hf; [auto|].
    eapply IH; [|exact Hf].
    intros g Hg. destruct acc as [g0|e]; simpl in Hg; [|discriminate].
    eapply Hstep; [apply Hacc; reflexivity|exact Hg]. }
  intros f. apply Hgen. intros g Hg. inversion Hg; subst. exact Hzero.
Qed.

Lemma describe_point_invariant (Inv : Descriptor.block -> Prop)
    (grad thetas : matrix num) (x y : list Z) (shape0 shape1 fw : Z) (cor : Z * Z)
    (f : Descriptor.block) :
  Inv Descriptor.zero_block ->
  (forall g g' i j a w,
      Inv g ->
      (forall v, In v w -> In v (concat grad)) ->
      Descriptor.set_cell g i j (Descriptor.histogram a w) = Ok g' ->
      Inv g') ->
  Descriptor.describe_point grad thetas x y shape0 shape1 fw cor = Ok f -> Inv f.
Proof.
  intros Hzero Hstep. unfold Descriptor.describe_point.
  destruct (Descriptor.int_first _) as [i1|e]; simpl; [|discriminate].
  destruct (Descriptor.astype_second _) as [i2|e]; simpl; [|discriminate].
  destruct (Descriptor.int_first _) as [j1|e]; simpl; [|discriminate].
  destruct (Descriptor.astype_second _) as [j2|e]; simpl; [|discriminate].
  destruct (Descriptor.last_entry i2) as [i2l|e]; simpl; [|discriminate].
  destruct (Descriptor.last_entry j2) as [j2l|e]; simpl; [|discriminate].
  apply fill_cells_invariant; [exact Hzero|].
  intros g g' i j Hg Hset. eapply Hstep; [exact Hg| |exact Hset].
  intros v Hv. unfold Descriptor.cell in Hv.
  apply in_slice2 in Hv. apply in_slice2 in Hv. exact Hv.
Qed.


(** What [get_features] returns, when it returns: one block per entry of
    [x], flattened and passed through [finish]. *)
Lemma features_of_gradients_ok (Inv : Descriptor.block -> Prop)
    (dx dy : matrix num) (shape0 shape1 : Z) (x y : list Z) (fw : Z)
    (features : matrix num) :
  let grad := Py.map2 (Py.map2 (fun a b => sqrt (add (square a) (square b)))) dx dy in
  Inv Descriptor.zero_block ->
  (forall g g' i j a w,
      Inv g ->
      (forall v, In v w -> In v (concat grad)) ->
      Descriptor.set_cell g i j (Descriptor.histogram a w) = Ok g' ->
      Inv g') ->
  Descriptor.features_of_gradients dx dy shape0 shape1 x y fw = Ok features ->
  exists blocks,
    length blocks = length x /\ x <> [] /\ Forall Inv blocks /\
    features = map Descriptor.finish (map (fun f => concat (concat f)) blocks).
Proof.
  intros grad Hzero Hstep. unfold Descriptor.features_of_gradients. fold grad.
  destruct (mapM _ (combine x y)) as [described|e] eqn:Hd; simpl; [|discriminate].
  destruct (Descriptor.reshape _) as [rows|e] eqn:Hr; simpl; [|discriminate].
  intros Hf. inversion Hf; subst.
  exists (described ++ repeat Descriptor.zero_block (length x - length described)).
  pose proof (mapM_length _ _ _ Hd) as Hlen.
  rewrite length_combine in Hlen.
  assert (Hlx : length (described ++
                   repeat Descriptor.zero_block (length x - length described)) = length x).
  { rewrite length_app, repeat_length. lia. }
  unfold Descriptor.reshape in Hr.
  destruct (described ++ repeat Descriptor.zero_block (length x - length described))
    as [|b bs] eqn:Hb; [discriminate|].
  inversion Hr; subst. repeat split.
  - exact Hlx.
  - intros ->. discriminate.
  - rewrite <- Hb. apply Forall_app. split.
    + eapply mapM_Forall; [|exact Hd]. intros cor f _ Hf'.
      eapply describe_point_invariant; [exact Hzero|exact Hstep|exact Hf'].
    + apply Forall_forall. intros f Hin. apply repeat_spec in Hin. now subst.
Qed.

Lemma all_ge_shifted (lo : Q) (hi : list Q) (n : Z) :
  Forall (fun v => (inject_Z n <= v)%Q) hi ->
  Descriptor.all_ge (snd (Descriptor.shift_low lo hi)) n = true.
Proof.
  intros Hhi. unfold Descriptor.all_ge, Descriptor.shift_low.
  apply forallb_forall. intros v Hv. apply Qle_bool_iff.
  destruct (Qle_bool 0 lo) eqn:Hlo; simpl in Hv.
  - rewrite Forall_forall in Hhi. auto.
  - apply in_map_iff in Hv. destruct Hv as [u [<- Hu]].
    rewrite Forall_forall in Hhi. specialize (Hhi u Hu).
    assert (Hneg : (lo < 0)%Q).
    { apply Qnot_le_lt. intros Hle. apply Qle_bool_iff in Hle. congruence. }
    Lqa.lra.
Qed.

Lemma half_width_bound (x : list Z) (fw n : Z) :
  Forall (fun v => 2 * n <= 2 * v + fw) x ->
  Forall (fun v => (inject_Z n <= v)%Q)
         (map (fun v => (inject_Z v + inject_Z fw / 2)%Q) x).
Proof.
  intros Hx. apply Forall_forall. intros q Hq. apply in_map_iff in Hq.
  destruct Hq as [v [<- Hv]]. rewrite Forall_forall in Hx. specialize (Hx v Hv).
  unfold Qle. simpl. lia.
Qed.

Lemma row_bounds_far (cor_x : Z) (x : list Z) (fw n : Z) :
  Forall (fun v => 2 * n <= 2 * v + fw) x ->
  exists lo, Descriptor.row_bounds cor_x x fw n = Descriptor.Clamped lo (n - 1) /\
             length lo = length x.
Proof.
  intros Hfar. unfold Descriptor.row_bounds. cbv zeta. cbn [fst snd].
  rewrite all_ge_shifted by (apply half_width_bound; exact Hfar).
  eexists. split; [reflexivity|].
  rewrite length_map. unfold Descriptor.shift_low.
  destruct (negb _); cbn [snd]; now rewrite ?length_map.
Qed.

Lemma all_ge_interior (hi : list Q) (n : Z) (v : Q) :
  In v hi -> (v < inject_Z n)%Q -> Descriptor.all_ge hi n = false.
Proof.
  intros Hin Hlt. unfold Descriptor.all_ge.
  destruct (forallb _ hi) eqn:E; [|reflexivity].
  rewrite forallb_forall in E. specialize (E v Hin).
  apply Qle_bool_iff in E. Lqa.lra.
Qed.

Lemma shift_low_interior (c fw : Z) (hi : list Q) :
  fw <= 2 * c + 2 ->
  Descriptor.shift_low (inject_Z c - (inject_Z fw / 2 - 1))%Q hi
  = ((inject_Z c - (inject_Z fw / 2 - 1))%Q, hi).
Proof.
  intros Hc. unfold Descriptor.shift_low.
  assert (Hle : Qle_bool 0 (inject_Z c - (inject_Z fw / 2 - 1)) = true).
  { apply Qle_bool_iff. unfold Qle. simpl. lia. }
  now rewrite Hle.
Qed.

Lemma half_width_inside (c fw n : Z) :
  2 * c + fw < 2 * n -> (inject_Z c + inject_Z fw / 2 < inject_Z n)%Q.
Proof.
  intros Hc. unfold Qlt. simpl. lia.
Qed.

(** For a point with [feature_width/2 - 1 <= c] and
    [c + feature_width/2 < shape], neither line 156 nor line 158 runs. *)
Lemma row_bounds_interior (c : Z) (x : list Z) (fw n : Z) :
  In c x -> fw <= 2 * c + 2 -> 2 * c + fw < 2 * n ->
  Descriptor.row_bounds c x fw n
  = Descriptor.Shifted (inject_Z c - (inject_Z fw / 2 - 1))%Q
                       (map (fun v => (inject_Z v + inject_Z fw / 2)%Q) x).
Proof.
  intros Hin Hlo Hhi. unfold Descriptor.row_bounds. cbv zeta. cbn [fst snd].
  rewrite shift_low_interior by exact Hlo. cbn [fst snd].
  rewrite (all_ge_interior _ n (inject_Z c + inject_Z fw / 2)%Q); [reflexivity| |].
  - apply in_map_iff. exists c. auto.
  - apply half_width_inside. exact Hhi.
Qed.

Lemma col_bounds_interior (c : Z) (y : list Z) (fw n : Z) :
  In c y -> fw <= 2 * c + 2 -> 2 * c + fw < 2 * n ->
  Descriptor.col_bounds c y fw n
  = Descriptor.Shifted (inject_Z c - (inject_Z fw / 2 - 1))%Q
                       (map (fun v => (inject_Z v + inject_Z fw / 2)%Q) y).
Proof.
  intros Hin Hlo Hhi. unfold Descriptor.col_bounds. cbv zeta. cbn [fst snd].
  rewrite shift_low_interior by exact Hlo. cbn [fst snd].
  rewrite (all_ge_interior _ n (inject_Z c + inject_Z fw / 2)%Q); [reflexivity| |].
  - apply in_map_iff. exists c. auto.
  - apply half_width_inside. exact Hhi.
Qed.

Lemma last_entry_ok (a : list Z) : a <> [] -> exists v, Descriptor.last_entry a = Ok v.
Proof.
  intros Ha. unfold Descriptor.last_entry. destruct (rev a) as [|v r] eqn:E.
  - exfalso. apply Ha. rewrite <- (rev_involutive a), E. reflexivity.
  - eauto.
Qed.

Lemma set_cell_ok (f : Descriptor.block) (i j : Z) (h : list num) :
  i < 4 -> j < 4 -> exists f', Descriptor.set_cell f i j h = Ok f'.
Proof.
  intros Hi Hj. unfold Descriptor.set_cell.
  apply Z.ltb_lt in Hi. apply Z.ltb_lt in Hj. rewrite Hi, Hj. simpl. eauto.
Qed.

Lemma int_quarter (fw : Z) : Py.int (inject_Z fw / 4)%Q = Z.quot fw 4.
Proof.
  unfold Py.int. simpl. f_equal. lia.
Qed.

(** Up to [feature_width = 19] the loops of lines 171-172 stay within the
    4 x 4 cells of a block. *)
Lemma fill_cells_ok (grad_w theta_w : matrix num) (fw : Z) :
  fw < 20 -> exists f, Descriptor.fill_cells grad_w theta_w fw = Ok f.
Proof.
  intros Hfw. unfold Descriptor.fill_cells. rewrite int_quarter.
  assert (Hq : Z.quot fw 4 <= 4).
  { destruct (Z.lt_ge_cases fw 0) as [Hneg|Hpos].
    - apply Z.le_trans with 0; [|lia]. apply Z.quot_le_upper_bound; lia.
    - assert (Z.quot fw 4 < 5); [|lia]. apply Z.quot_lt_upper_bound; lia. }
  assert (Hcells : forall ij,
             In ij (list_prod (Py.range 0 (Z.quot fw 4) 1) (Py.range 0 (Z.quot fw 4) 1)) ->
             fst ij < 4 /\ snd ij < 4).
  { intros [i j] Hin. apply in_prod_iff in Hin. destruct Hin as [Hi Hj].
    apply in_range in Hi; [|lia]. apply in_range in Hj; [|lia]. simpl. lia. }
  revert Hcells.
  generalize (list_prod (Py.range 0 (Z.quot fw 4) 1) (Py.range 0 (Z.quot fw 4) 1)).
  generalize (Descriptor.zero_block (num:=num)).
  intros f cells. revert f. induction cells as [|ij cells IH]; intros f Hcells.
  - simpl. eauto.
  - simpl. destruct (Hcells ij (or_introl eq_refl)) as [Hi Hj].
    destruct (set_cell_ok f (fst ij) (snd ij)
                (Descriptor.histogram (Descriptor.cell theta_w (fst ij) (snd ij) fw)
                                      (Descriptor.cell grad_w (fst ij) (snd ij) fw)) Hi Hj)
      as [f' Hf']. rewrite Hf'.
    apply IH. intros ij' Hin. apply Hcells. now right.
Qed.

Lemma mapM_ok {A B : Type} (f : A -> result B) (l : list A) :
  (forall a, In a l -> exists b, f a = Ok b) -> exists bs, mapM f l = Ok bs.
Proof.
  induction l as [|a l IH]; simpl; intros Hf; [eauto|].
  destruct (Hf a (or_introl eq_refl)) as [b Hb]. rewrite Hb. simpl.
  destruct IH as [bs Hbs]; [intros a' Ha'; apply Hf; now right|].
  rewrite Hbs. simpl. eauto.
Qed.

(** Lines 144-189 return when there is a point, every point has its window
    inside the image, and [feature_width] is below 20. *)
Lemma features_of_gradients_returns (dx dy : matrix num) (shape0 shape1 : Z)
    (x y : list Z) (fw : Z) :
  x <> [] -> fw < 20 ->
  Forall (fun v => fw <= 2 * v + 2 /\ 2 * v + fw < 2 * shape0) x ->
  Forall (fun v => fw <= 2 * v + 2 /\ 2 * v + fw < 2 * shape1) y ->
  exists features,
    Descriptor.features_of_gradients dx dy shape0 shape1 x y fw = Ok features.
Proof.
  intros Hx Hfw Hxs Hys. unfold Descriptor.features_of_gradients.
  match goal with
  | |- context [mapM ?f (combine x y)] => destruct (mapM_ok f (combine x y)) as [bs Hbs]
  end.
  - intros [cx cy] Hin. unfold Descriptor.describe_point. cbn [fst snd].
    pose proof (in_combine_l _ _ _ _ Hin) as Hcx.
    pose proof (in_combine_r _ _ _ _ Hin) as Hcy.
    rewrite Forall_forall in Hxs, Hys.
    destruct (Hxs cx Hcx) as [Hx1 Hx2]. destruct (Hys cy Hcy) as [Hy1 Hy2].
    rewrite (row_bounds_interior cx x fw shape0 Hcx Hx1 Hx2).
    rewrite (col_bounds_interior cy y fw shape1 Hcy Hy1 Hy2).
    cbn [Descriptor.int_first Descriptor.astype_second bind].
    match goal with
    | |- context [Descriptor.last_entry ?a] =>
        destruct (last_entry_ok a) as [i2l Hi2]; [|rewrite Hi2; cbn [bind]]
    end.
    { destruct x; [contradiction|discriminate]. }
    match goal with
    | |- context [Descriptor.last_entry ?a] =>
        destruct (last_entry_ok a) as [j2l Hj2]; [|rewrite Hj2; cbn [bind]]
    end.
    { destruct y; [contradiction|discriminate]. }
    apply fill_cells_ok. exact Hfw.
  - rewrite Hbs. cbn [bind].
    destruct (bs ++ repeat Descriptor.zero_block (length x - length bs)) as [|b rest] eqn:E.
    + exfalso. apply app_eq_nil in E. destruct E as [-> E].
      simpl in E. rewrite Nat.sub_0_r in E. destruct x; [contradiction|discriminate].
    + simpl. eauto.
Qed.

Section FarBorder.
Variable pixel : Type.
Variable gaussian : list (list pixel) -> num -> matrix num.
Variables scharr_v scharr_h : matrix num -> matrix num.

(** C4 fails on the code.  When every entry [v] of [x] has
    [v + feature_width/2 >= image.shape[0]], line 158 runs for the first
    interest point and leaves [rows] as an array and a Python [int]; then
    [int(rows[0])] raises [TypeError] when there are several points, and
    otherwise [rows[1].astype] raises [AttributeError].  No descriptor is
    produced. *)
Theorem far_border_raises (image : list (list pixel)) (x y : list Z) (feature_width : Z)
    (cor_x cor_y : Z) (xs ys : list Z) :
  x = cor_x :: xs -> y = cor_y :: ys ->
  Forall (fun v => 2 * Z.of_nat (length image) <= 2 * v + feature_width) x ->
  Descriptor.get_features pixel gaussian scharr_v scharr_h image x y feature_width
  = Raise (match xs with [] => AttributeError | _ => TypeError end).
Proof.
  intros Hx Hy Hfar. unfold Descriptor.get_features, Descriptor.features_of_gradients.
  destruct (row_bounds_far cor_x x feature_width (Z.of_nat (length image)) Hfar)
    as [lo [Hrows Hlen]].
  rewrite Hy. rewrite Hx at 2. cbn [combine mapM].
  unfold Descriptor.describe_point at 1. cbn [fst snd]. rewrite Hrows.
  rewrite Hx in Hlen.
  destruct xs as [|x2 xs']; destruct lo as [|v [|v' lo']]; try discriminate; reflexivity.
Qed.

End FarBorder.

(** With [feature_width = 4] on a 4 x 4 image and the single point
    [(1, 1)], the window is the whole image and only the cell [(0, 0)], the
    pixel of row 0 and column 0, is binned. *)
Lemma single_cell_run (a b : num) :
  let g := sqrt (add (square a) (square b)) in
  let t := arctan2 b a in
  let t := if ltb t zero then add t two_pi else t in
  Descriptor.features_of_gradients
    (repeat (repeat a 4%nat) 4%nat) (repeat (repeat b 4%nat) 4%nat) 4 4 [1] [1] 4
  = Ok [Descriptor.finish (Descriptor.histogram [t] [g] ++ repeat zero 120%nat)].
Proof.
  reflexivity.
Qed.

(** With [feature_width = 32] the loops of lines 171-172 run over
    [range(8)], and the assignment to [features[m, 0, 4]] is out of range:
    the number of cells per side is taken to be the side of a cell. *)
Lemma wide_window_run (dx dy : matrix num) :
  Descriptor.features_of_gradients dx dy 64 64 [32] [32] 32 = Raise IndexError.
Proof.
  reflexivity.
Qed.

(** The same at the far border of the columns: line 163 leaves [cols] as an
    array and a Python [int], and line 168 raises. *)
Lemma far_column_run (dx dy : matrix num) :
  Descriptor.features_of_gradients dx dy 32 32 [16] [30] 16 = Raise AttributeError.
Proof.
  reflexivity.
Qed.

(** The upper bounds of the window come from the last entry of [x] and
    [y], not from the point itself: with the points [(30, 16)] and
    [(10, 16)] on a 32 x 32 image and [feature_width = 16], line 158 does
    not run, the rows of the first window are [23:19], and its block stays
    zero. *)
Lemma mixed_points_window (g t : num) :
  Descriptor.describe_point (repeat (repeat g 32%nat) 32%nat) (repeat (repeat t 32%nat) 32%nat)
    [30; 10] [16; 16] 32 32 16 (30, 16)
  = Ok Descriptor.zero_block.
Proof.
  reflexivity.
Qed.

End DescriptorFacts.

(** ** [get_features] over the reals *)

Lemma length_concat_const {A : Type} (ls : list (list A)) (n : nat) :
  Forall (fun l => length l = n) ls -> length (concat ls) = (length ls * n)%nat.
Proof.
  induction 1 as [|l ls Hl _ IH]; simpl; [reflexivity|].
  rewrite length_app, IH, Hl. reflexivity.
Qed.

Lemma block_flat_length {num : Type} (f : list (list (list num))) :
  Shape.block_shape f -> length (concat (concat f)) = 128%nat.
Proof.
  intros [Hlen Hall].
  rewrite (length_concat_const (concat f) 8).
  - rewrite (length_concat_const f 4), Hlen; [reflexivity|].
    eapply Forall_impl; [|exact Hall]. simpl. tauto.
  - apply Forall_concat. eapply Forall_impl; [|exact Hall]. simpl. tauto.
Qed.

Section FeatureFacts.
Local Open Scope R_scope.


Lemma sum_squares_nonneg (l : list R) : 0 <= fold_right Rplus 0 (map square l).
Proof.
  induction l as [|v l IH]; simpl; [lra|].
  change (square v) with (v * v). nra.
Qed.

Lemma sum_squares_zero (l : list R) :
  fold_right Rplus 0 (map square l) = 0 -> Forall (fun v => v = 0) l.
Proof.
  induction l as [|v l IH]; simpl; intros Hs; [constructor|].
  change (square v) with (v * v) in Hs.
  pose proof (sum_squares_nonneg l) as Hl.
  constructor; [nra|]. apply IH. nra.
Qed.

Lemma sum_squares_scaled (l : list R) (d : R) :
  d <> 0 ->
  fold_right Rplus 0 (map square (map (fun v => v / d) l))
  = fold_right Rplus 0 (map square l) / (d * d).
Proof.
  intros Hd. induction l as [|v l IH]; simpl; [field; exact Hd|].
  rewrite IH. change (square (v / d)) with (v / d * (v / d)).
  change (square v) with (v * v). field. exact Hd.
Qed.


(** A row that is not all-zero is brought to Euclidean norm 1; an all-zero
    row stays as it is. *)
Lemma normalize_cases (row : list R) :
  (Forall (fun v => v = 0) row /\ Forall (fun v => v = 0) (Descriptor.normalize row)) \/
  R_sqrt.sqrt (np_sum (map square (Descriptor.normalize row))) = 1.
Proof.
  unfold Descriptor.normalize. simpl. unfold Reqb.
  destruct (Req_dec_T (R_sqrt.sqrt (np_sum (map square row))) (IZR 0)) as [Hz|Hnz].
  - left. rewrite np_sum_real in Hz.
    apply sqrt_eq_0 in Hz; [|apply sum_squares_nonneg].
    apply sum_squares_zero in Hz. split; [exact Hz|].
    apply Forall_forall. intros v Hv. apply in_map_iff in Hv.
    destruct Hv as [u [<- Hu]]. rewrite Forall_forall in Hz.
    rewrite (Hz u Hu). change (0 / 1 = 0). field.
  - right. rewrite !np_sum_real in *.
    rewrite sum_squares_scaled by exact Hnz.
    rewrite sqrt_sqrt by apply sum_squares_nonneg.
    pose proof (sum_squares_nonneg row) as Hs.
    assert (Hpos : fold_right Rplus 0 (map square row) <> 0).
    { intros Heq. apply Hnz. rewrite Heq. apply sqrt_0. }
    replace (fold_right Rplus 0 (map square row) / fold_right Rplus 0 (map square row))
      with 1 by (field; exact Hpos).
    apply sqrt_1.
Qed.

Lemma clip_zero : Descriptor.clip (num:=R) 0 = 0.
Proof.
  unfold Descriptor.clip. simpl. unfold Rleb.
  destruct (Rle_dec (3 / 10) 0) as [Hle|_]; [lra|reflexivity].
Qed.

Lemma compress_zero : Descriptor.compress (num:=R) 0 = 0.
Proof.
  unfold Descriptor.compress. simpl. unfold Rpow.
  destruct (Rle_dec 0 0) as [_|Hn]; [reflexivity|lra].
Qed.

Lemma finish_zero (row : list R) :
  Forall (fun v => v = 0) (Descriptor.normalize row) ->
  Forall (fun v => v = 0) (Descriptor.finish row).
Proof.
  unfold Descriptor.finish. intros Hz. rewrite map_map.
  apply Forall_forall. intros v Hv. apply in_map_iff in Hv.
  destruct Hv as [u [<- Hu]]. rewrite Forall_forall in Hz.
  rewrite (Hz u Hu), clip_zero. apply compress_zero.
Qed.




Lemma in_bin_first : Descriptor.in_bin (num:=R) 0 0 = true.
Proof.
  unfold Descriptor.in_bin, Descriptor.edge. simpl. unfold Rleb, Rltb.
  pose proof PI_RGT_0 as Hpi.
  destruct (Rle_dec (0 * (2 * PI / 8)) 0) as [_|Hn]; [|lra].
  destruct (Rlt_dec 0 (1 * (2 * PI / 8))) as [_|Hn]; [reflexivity|lra].
Qed.

Lemma in_bin_later (k : Z) : (1 <= k <= 7)%Z -> Descriptor.in_bin (num:=R) k 0 = false.
Proof.
  intros Hk. unfold Descriptor.in_bin, Descriptor.edge.
  destruct (k =? 8)%Z eqn:E; [apply Z.eqb_eq in E; lia|].
  simpl. unfold Rleb. pose proof PI_RGT_0 as Hpi.
  assert (Hk1 : 1 <= IZR k) by (apply IZR_le; lia).
  destruct (Rle_dec (IZR k * (2 * PI / 8)) 0) as [Hle|_]; [nra|reflexivity].
Qed.

Lemma histogram_at_zero (g : R) :
  Descriptor.histogram [0] [g] = [0 + g; 0; 0; 0; 0; 0; 0; 0].
Proof.
  unfold Descriptor.histogram.
  change (Py.range 0 8 1) with [0; 1; 2; 3; 4; 5; 6; 7]%Z.
  cbn [map combine filter fst snd].
  rewrite in_bin_first, !in_bin_later by lia. reflexivity.
Qed.

Lemma sum_squares_zeros (n : nat) : fold_right Rplus 0 (map square (repeat 0 n)) = 0.
Proof.
  induction n as [|n IH]; simpl; [reflexivity|].
  rewrite IH. change (square 0) with (0 * 0). ring.
Qed.

Lemma finish_unit_row (n : nat) :
  Descriptor.finish (1 :: repeat 0 n) = Rpower (3 / 10) (8 / 10) :: repeat 0 n.
Proof.
  assert (Hnorm : R_sqrt.sqrt (np_sum (map square (1 :: repeat 0 n))) = 1).
  { rewrite np_sum_real. simpl. rewrite sum_squares_zeros.
    change (square 1) with (1 * 1). replace (1 * 1 + 0) with 1 by ring. apply sqrt_1. }
  unfold Descriptor.finish, Descriptor.normalize.
  change (sqrt (np_sum (map square (1 :: repeat 0 n))))
    with (R_sqrt.sqrt (np_sum (map square (1 :: repeat 0 n)))).
  rewrite Hnorm. simpl. unfold Reqb.
  destruct (Req_dec_T 1 0) as [Heq|_]; [lra|].
  rewrite !map_repeat. f_equal.
  - unfold Descriptor.clip, Descriptor.compress. simpl. unfold Rleb, Rpow.
    destruct (Rle_dec (3 / 10) (1 / 1)) as [_|Hn]; [|lra].
    destruct (Rle_dec (3 / 10) 0) as [Hn|_]; [lra|reflexivity].
  - f_equal. replace (0 / 1) with 0 by field. rewrite clip_zero. apply compress_zero.
Qed.

(** The run of lines 144-189 on the gradients of a ramp. *)
Lemma ramp_run :
  Descriptor.features_of_gradients FeatureSample.dx_ramp FeatureSample.dy_ramp
    4 4 [1%Z] [1%Z] 4
  = Ok [FeatureSample.ceiling :: repeat 0 127%nat].
Proof.
  unfold FeatureSample.dx_ramp, FeatureSample.dy_ramp.
  rewrite (single_cell_run 1 0). cbv zeta. do 2 f_equal.
  assert (Hg : sqrt (add (square 1) (square 0)) = 1).
  { change (R_sqrt.sqrt (1 * 1 + 0 * 0) = 1).
    replace (1 * 1 + 0 * 0) with 1 by ring. apply sqrt_1. }
  assert (Ht : arctan2 0 1 = 0).
  { change (Rarctan2 0 1 = 0). unfold Rarctan2.
    destruct (Rlt_dec 0 1) as [_|Hn]; [|lra].
    replace (0 / 1) with 0 by field. apply atan_0. }
  rewrite Hg, Ht.
  assert (Hw : ltb (num:=R) 0 zero = false).
  { change (Rltb 0 0 = false). unfold Rltb.
    destruct (Rlt_dec 0 0) as [Hl|_]; [lra|reflexivity]. }
  rewrite Hw, histogram_at_zero.
  replace (0 + 1) with 1 by ring.
  exact (finish_unit_row 127).
Qed.

Lemma ceiling_bounds : 0 < FeatureSample.ceiling < 1 / 2.
Proof.
  unfold FeatureSample.ceiling. split; [apply exp_pos|].
  destruct (Rlt_dec (Rpower (3 / 10) (8 / 10)) (1 / 2)) as [Hlt|Hge]; [exact Hlt|exfalso].
  assert (Hle : Rpower (1 / 2) 5 <= Rpower (Rpower (3 / 10) (8 / 10)) 5).
  { apply Rle_Rpower_l; lra. }
  rewrite Rpower_mult in Hle.
  replace (8 / 10 * 5) with (INR 4) in Hle by (simpl; lra).
  replace 5 with (INR 5) in Hle at 1 by (simpl; lra).
  rewrite !Rpower_pow in Hle by lra.
  simpl in Hle. lra.
Qed.

Lemma unit_row_norm (c : R) (n : nat) :
  0 <= c -> R_sqrt.sqrt (np_sum (map square (c :: repeat 0 n))) = c.
Proof.
  intros Hc. rewrite np_sum_real. simpl. rewrite sum_squares_zeros.
  change (square c) with (c * c). replace (c * c + 0) with (c * c) by ring.
  apply sqrt_square. exact Hc.
Qed.


Section GetFeatures.
Variable pixel : Type.
Variable gaussian : list (list pixel) -> R -> matrix R.
Variables scharr_v scharr_h : matrix R -> matrix R.

(** C2 (as amended).  [get_features] returns when [x] is not empty, every
    point has its window inside the image ([feature_width/2 - 1 <= v] and
    [v + feature_width/2 < shape] for every entry [v] of [x] and of [y]) and
    [feature_width < 20].  When it returns, the matrix has one row per entry
    of [x], each of 128 entries, and each row is [finish h] -- the entries
    of [normalize h] clipped at 0.3 and raised to the power 0.8 -- for a
    vector [h] of 128 entries such that either [normalize h] has Euclidean
    norm 1, or [h] is all-zero and so is the row. *)
Theorem descriptor_rows (image : list (list pixel)) (x y : list Z) (feature_width : Z) :
  (x <> [] -> (feature_width < 20)%Z ->
   Forall (fun v => (feature_width <= 2 * v + 2 /\
                     2 * v + feature_width < 2 * Z.of_nat (length image))%Z) x ->
   Forall (fun v => (feature_width <= 2 * v + 2 /\
                     2 * v + feature_width < 2 * Z.of_nat (length (hd [] image)))%Z) y ->
   exists features,
     Descriptor.get_features pixel gaussian scharr_v scharr_h image x y feature_width
     = Ok features) /\
  (forall features : matrix R,
   Descriptor.get_features pixel gaussian scharr_v scharr_h image x y feature_width
     = Ok features ->
   length features = length x /\
   Forall (fun row => length row = 128%nat) features /\
   exists raw : matrix R,
     features =
       map (fun h => map Descriptor.compress (map Descriptor.clip (Descriptor.normalize h)))
           raw /\
     Forall (fun h =>
       length h = 128%nat /\
       ((Forall (fun v => v = 0) h /\
         Forall (fun v => v = 0)
           (map Descriptor.compress (map Descriptor.clip (Descriptor.normalize h)))) \/
        R_sqrt.sqrt (np_sum (map square (Descriptor.normalize h))) = 1)) raw).
Proof.
  split.
  { intros Hx Hfw Hxs Hys. unfold Descriptor.get_features.
    apply features_of_gradients_returns; assumption. }
  unfold Descriptor.get_features. intros features Hf.
  apply (features_of_gradients_ok Shape.block_shape) in Hf.
  - destruct Hf as [blocks [Hlen [_ [Hall ->]]]].
    assert (Hraw : Forall (fun h : list R => length h = 128%nat)
                     (map (fun f => concat (concat f)) blocks)).
    { apply Forall_forall. intros h Hh. apply in_map_iff in Hh.
      destruct Hh as [f [<- Hin]]. apply block_flat_length.
      rewrite Forall_forall in Hall. auto. }
    split; [now rewrite !length_map|]. split.
    + apply Forall_forall. intros row Hrow. apply in_map_iff in Hrow.
      destruct Hrow as [h [<- Hh]]. unfold Descriptor.finish, Descriptor.normalize.
      rewrite !length_map. rewrite Forall_forall in Hraw. auto.
    + exists (map (fun f => concat (concat f)) blocks). split; [reflexivity|].
      eapply Forall_impl; [|exact Hraw]. simpl. intros h Hh. split; [exact Hh|].
      destruct (normalize_cases h) as [[Hz Hnz]|Hone]; [left|right; exact Hone].
      split; [exact Hz|]. apply (finish_zero h Hnz).
  - apply zero_block_shape.
  - intros g g' i j a w Hg _ Hset.
    eapply set_cell_shape; [exact Hg|apply histogram_length|exact Hset].
Qed.


End GetFeatures.

Lemma ramp_get_features :
  Descriptor.get_features R FeatureSample.gaussian_id FeatureSample.scharr_v_ramp
    FeatureSample.scharr_h_ramp FeatureSample.ramp [1%Z] [1%Z] 4
  = Ok [FeatureSample.ceiling :: repeat 0 127%nat].
Proof.
  exact ramp_run.
Qed.

Lemma descriptor_rows_witness :
  (exists features,
     Descriptor.get_features R FeatureSample.gaussian_id FeatureSample.scharr_v_ramp
       FeatureSample.scharr_h_ramp FeatureSample.ramp [1%Z] [1%Z] 4
     = Ok features) /\
  length [FeatureSample.ceiling :: repeat 0 127%nat] = length [1%Z] /\
  Forall (fun row => length row = 128%nat) [FeatureSample.ceiling :: repeat 0 127%nat] /\
  exists raw : matrix R,
    [FeatureSample.ceiling :: repeat 0 127%nat] =
      map (fun h => map Descriptor.compress (map Descriptor.clip (Descriptor.normalize h)))
          raw /\
    Forall (fun h =>
      length h = 128%nat /\
      ((Forall (fun v => v = 0) h /\
        Forall (fun v => v = 0)
          (map Descriptor.compress (map Descriptor.clip (Descriptor.normalize h)))) \/
       R_sqrt.sqrt (np_sum (map square (Descriptor.normalize h))) = 1)) raw.
Proof.
  destruct (descriptor_rows R FeatureSample.gaussian_id FeatureSample.scharr_v_ramp
              FeatureSample.scharr_h_ramp FeatureSample.ramp [1%Z] [1%Z] 4)
    as [Hreturns Hrows].
  split.
  - apply Hreturns.
    + discriminate.
    + lia.
    + repeat constructor; simpl; lia.
    + repeat constructor; simpl; lia.
  - exact (Hrows _ ramp_get_features).
Defined.


(** C2 (as the specification words it) fails.  On the gradients of a ramp
    with [feature_width = 4] and the point [(1, 1)], the single row returned
    has the entry 0.3 ** 0.8 followed by 127 zeros: it is not all-zero, and
    its Euclidean norm is 0.3 ** 0.8, which is below 1/2. *)
Lemma unit_norm_counterexample :
  Descriptor.features_of_gradients FeatureSample.dx_ramp FeatureSample.dy_ramp
    4 4 [1%Z] [1%Z] 4
  = Ok [FeatureSample.ceiling :: repeat 0 127%nat] /\
  R_sqrt.sqrt (np_sum (map square (FeatureSample.ceiling :: repeat 0 127%nat)))
  = FeatureSample.ceiling /\
  0 < FeatureSample.ceiling < 1 / 2.
Proof.
  split; [exact ramp_run|]. split; [|exact ceiling_bounds].
  apply unit_row_norm. pose proof ceiling_bounds. lra.
Qed.

End FeatureFacts.

Lemma far_border_raises_witness :
  Descriptor.get_features Z BorderSample.gaussian BorderSample.scharr BorderSample.scharr
    BorderSample.image BorderSample.x BorderSample.y 16
  = Raise AttributeError.
Proof.
  apply (far_border_raises Z BorderSample.gaussian BorderSample.scharr BorderSample.scharr
           BorderSample.image BorderSample.x BorderSample.y 16 30 16 [] []).
  - reflexivity.
  - reflexivity.
  - repeat constructor. simpl. lia.
Defined.

(** * Further facts *)

(** ** The points of [get_interest_points] *)

Lemma NoDup_flat_map {A B : Type} (f : A -> list B) (l : list A) :
  NoDup l ->
  (forall a, In a l -> NoDup (f a)) ->
  (forall a b c, In a l -> In b l -> In c (f a) -> In c (f b) -> a = b) ->
  NoDup (flat_map f l).
Proof.
  induction 1 as [|a l Hnotin Hnd IH]; simpl; intros Hf Hsep; [constructor|].
  apply NoDup_app.
  - apply Hf. now left.
  - apply IH.
    + intros b Hb. apply Hf. now right.
    + intros b b' c Hb Hb'. apply Hsep; now right.
  - intros c Hc Hin. apply in_flat_map in Hin. destruct Hin as [b [Hb Hcb]].
    assert (a = b) by (apply (Hsep a b c); [now left|now right|exact Hc|exact Hcb]).
    subst b. contradiction.
Qed.

Lemma NoDup_range (start stop step : Z) : 0 < step -> NoDup (Py.range start stop step).
Proof.
  intros Hstep. unfold Py.range. apply NoDup_map_NoDup_ForallPairs; [|apply seq_NoDup].
  intros a b _ _ Heq. nia.
Qed.

Section DetectorPoints.
Context {num : Type} `{Arith num}.

Lemma NoDup_harris_scan (dx2 dy2 dxy : matrix num) (rows columns fw : Z) :
  NoDup (Detector.harris_scan dx2 dy2 dxy rows columns fw).
Proof.
  unfold Detector.harris_scan, Detector.stride.
  apply NoDup_flat_map.
  - apply NoDup_range. lia.
  - intros y _. apply NoDup_flat_map.
    + apply NoDup_range. lia.
    + intros x _. destruct (ltb _ _); repeat constructor. intros [].
    + intros x x' c _ _ Hc Hc'.
      destruct (ltb _ (Detector.response dx2 dy2 dxy y x fw)); [|contradiction].
      destruct (ltb _ (Detector.response dx2 dy2 dxy y x' fw)); [|contradiction].
      destruct Hc as [<-|[]]. destruct Hc' as [Hc'|[]]. inversion Hc'. lia.
  - intros y y' c _ _ Hc Hc'.
    apply in_flat_map in Hc. destruct Hc as [x [_ Hc]].
    apply in_flat_map in Hc'. destruct Hc' as [x' [_ Hc']].
    destruct (ltb _ (Detector.response dx2 dy2 dxy y x fw)); [|contradiction].
    destruct (ltb _ (Detector.response dx2 dy2 dxy y' x' fw)); [|contradiction].
    destruct Hc as [<-|[]]. destruct Hc' as [Hc'|[]]. inversion Hc'. lia.
Qed.

Variable pixel : Type.
Variable cv2_Sobel : list (list pixel) -> Z -> Z -> list (list Z).
Variable gaussian : list (list Z) -> num -> matrix num.

(** X1.  The points returned by [get_interest_points] are pairwise
    distinct, and for [feature_width >= 1] each of them lies in the image,
    at least [int(feature_width/2 - 1)] away from the near borders and more
    than [feature_width/2] away from the far borders. *)
Theorem interest_points_inside (image : list (list pixel)) (feature_width : Z) :
  1 <= feature_width ->
  let rows := Z.of_nat (length image) in
  let columns := Z.of_nat (length (hd [] image)) in
  let r := Detector.get_interest_points pixel cv2_Sobel gaussian image feature_width in
  NoDup (combine (fst r) (snd r)) /\
  Forall (fun p =>
            (0 <= Z.quot (feature_width - 2) 2 <= fst p /\
             2 * fst p + feature_width < 2 * columns) /\
            (0 <= Z.quot (feature_width - 2) 2 <= snd p /\
             2 * snd p + feature_width < 2 * rows))
         (combine (fst r) (snd r)).
Proof.
  intros Hfw rows columns r. subst r.
  unfold Detector.get_interest_points, Detector.harris_points. cbn [fst snd].
  rewrite combine_fst_snd. split; [apply NoDup_harris_scan|].
  apply Forall_forall. intros [px py] Hin. apply in_harris_scan in Hin.
  destruct Hin as [x [y [Hy [Hx [_ [-> ->]]]]]].
  unfold Detector.offset. rewrite int_offset. fold rows columns in Hy, Hx. cbn [fst snd].
  assert (Hq : 0 <= Z.quot (feature_width - 2) 2).
  { destruct (Z.eq_dec feature_width 1) as [->|Hne]; [discriminate|].
    apply Z.quot_pos; lia. }
  assert (Hq2 : 2 * Z.quot (feature_width - 2) 2 <= feature_width - 1).
  { destruct (Z.eq_dec feature_width 1) as [->|Hne]; [simpl; lia|].
    pose proof (Z.mul_quot_le (feature_width - 2) 2). lia. }
  lia.
Qed.

End DetectorPoints.

Lemma interest_points_inside_witness :
  let r := Detector.get_interest_points Z Library.Sobel5 Library.gaussian_03
             CornerSample.image 8 in
  NoDup (combine (fst r) (snd r)) /\
  Forall (fun p =>
            (0 <= Z.quot (8 - 2) 2 <= fst p /\ 2 * fst p + 8 < 2 * 20) /\
            (0 <= Z.quot (8 - 2) 2 <= snd p /\ 2 * snd p + 8 < 2 * 20))
         (combine (fst r) (snd r)).
Proof.
  apply (interest_points_inside Z Library.Sobel5 Library.gaussian_03 CornerSample.image 8).
  lia.
Defined.


Lemma flat_map_nil {A B : Type} (f : A -> list B) (l : list A) :
  (forall a, In a l -> f a = []) -> flat_map f l = [].
Proof.
  induction l as [|a l IH]; simpl; intros Hf; [reflexivity|].
  rewrite (Hf a) by now left. apply IH. intros b Hb. apply Hf. now right.
Qed.

Section EdgeRejection.
Local Open Scope R_scope.

Lemma np_sum_zeros (l : list R) : Forall (fun v => v = 0) l -> np_sum l = 0.
Proof.
  intros Hl. rewrite np_sum_real. induction Hl as [|v l Hv _ IH]; simpl; [reflexivity|].
  rewrite Hv, IH. ring.
Qed.

Lemma window_sum_zero (m : matrix R) (y x fw : Z) :
  Forall (Forall (fun v => v = 0)) m -> Detector.window_sum m y x fw = 0.
Proof.
  intros Hm. unfold Detector.window_sum. apply np_sum_zeros.
  apply Forall_forall. intros v Hv. apply in_slice2 in Hv.
  apply Forall_concat in Hm. rewrite Forall_forall in Hm. auto.
Qed.

Lemma squares_zero (m : matrix R) :
  Forall (Forall (fun v => v = 0)) m -> Forall (Forall (fun v => v = 0)) (map (map square) m).
Proof.
  intros Hm. apply Forall_forall. intros row Hrow. apply in_map_iff in Hrow.
  destruct Hrow as [r [<- Hr]]. rewrite Forall_forall in Hm. specialize (Hm r Hr).
  apply Forall_forall. intros v Hv. apply in_map_iff in Hv. destruct Hv as [u [<- Hu]].
  rewrite Forall_forall in Hm. rewrite (Hm u Hu). change (0 * 0 = 0). ring.
Qed.

Lemma products_zero (dx dy : matrix R) :
  Forall (Forall (fun v => v = 0)) dx \/ Forall (Forall (fun v => v = 0)) dy ->
  Forall (Forall (fun v => v = 0)) (Py.map2 (Py.map2 mul) dx dy).
Proof.
  intros Hz. unfold Py.map2. apply Forall_forall. intros row Hrow.
  apply in_map_iff in Hrow. destruct Hrow as [[r1 r2] [<- Hin]]. cbn [fst snd].
  apply Forall_forall. intros v Hv. apply in_map_iff in Hv.
  destruct Hv as [[a b] [<- Hab]]. cbn [fst snd]. change (a * b = 0).
  destruct Hz as [Hz|Hz]; rewrite Forall_forall in Hz.
  - apply in_combine_l in Hin. specialize (Hz r1 Hin). rewrite Forall_forall in Hz.
    apply in_combine_l in Hab. rewrite (Hz a Hab). ring.
  - apply in_combine_r in Hin. specialize (Hz r2 Hin). rewrite Forall_forall in Hz.
    apply in_combine_r in Hab. rewrite (Hz b Hab). ring.
Qed.

Variable pixel : Type.
Variable cv2_Sobel : list (list pixel) -> Z -> Z -> list (list Z).
Variable gaussian : list (list Z) -> R -> matrix R.

(** X2 (real arithmetic).  When one of the two smoothed gradients is zero
    at every pixel -- an image that varies in one direction only --
    [get_interest_points] returns no point: every response is
    [- 0.03 * S^2 <= 0], whatever the strength [S] of the other gradient. *)
Theorem straight_edges_rejected (image : list (list pixel)) (feature_width : Z) :
  Forall (Forall (fun v => v = 0)) (gaussian (cv2_Sobel image 1 0) (lit 3 10)) \/
  Forall (Forall (fun v => v = 0)) (gaussian (cv2_Sobel image 0 1) (lit 3 10)) ->
  Detector.get_interest_points pixel cv2_Sobel gaussian image feature_width = ([], []).
Proof.
  intros Hz. unfold Detector.get_interest_points, Detector.harris_points.
  cbv zeta.
  match goal with
  | |- (map fst ?l, map snd ?l) = _ => assert (Hnil : l = []); [|now rewrite Hnil]
  end.
  unfold Detector.harris_scan. apply flat_map_nil. intros y _.
  apply flat_map_nil. intros x _.
  assert (Hxy : Detector.window_sum
                  (Py.map2 (Py.map2 mul)
                     (gaussian (cv2_Sobel image 1 0) (lit 3 10))
                     (gaussian (cv2_Sobel image 0 1) (lit 3 10))) y x feature_width = 0).
  { apply window_sum_zero, products_zero. exact Hz. }
  assert (Hone : Detector.window_sum
                   (map (map square) (gaussian (cv2_Sobel image 1 0) (lit 3 10)))
                   y x feature_width = 0 \/
                 Detector.window_sum
                   (map (map square) (gaussian (cv2_Sobel image 0 1) (lit 3 10)))
                   y x feature_width = 0).
  { destruct Hz as [Hz|Hz]; [left|right]; apply window_sum_zero, squares_zero; exact Hz. }
  unfold Detector.response. cbv zeta. rewrite Hxy.
  set (Sxx := Detector.window_sum
                (map (map square) (gaussian (cv2_Sobel image 1 0) (lit 3 10)))
                y x feature_width) in *.
  set (Syy := Detector.window_sum
                (map (map square) (gaussian (cv2_Sobel image 0 1) (lit 3 10)))
                y x feature_width) in *.
  change (ltb Detector.threshold ?r) with (Rltb (5 / 1000) r).
  unfold Rltb.
  match goal with
  | |- context [Rlt_dec ?a ?b] => destruct (Rlt_dec a b) as [Hlt|_]; [exfalso|reflexivity]
  end.
  change (5 / 1000 < Sxx * Syy - 0 * 0 - 3 / 100 * ((Sxx + Syy) * (Sxx + Syy))) in Hlt.
  destruct Hone as [H0|H0]; rewrite H0 in Hlt; nra.
Qed.

End EdgeRejection.

Lemma straight_edges_rejected_witness :
  Detector.get_interest_points Z Library.Sobel5 EdgeSample.as_real EdgeSample.image 4
  = ([], []).
Proof.
  apply (straight_edges_rejected Z Library.Sobel5 EdgeSample.as_real EdgeSample.image 4).
  right. unfold EdgeSample.as_real.
  replace (Library.Sobel5 EdgeSample.image 0 1) with (repeat (repeat 0%Z 12%nat) 12%nat)
    by (vm_compute; reflexivity).
  repeat constructor.
Defined.


(** ** What a return of [match_features] implies *)

Section MatcherReturns.
Context {num : Type} `{Arith num}.

Lemma np_min_in (l : list num) (m : num) : Matcher.np_min l = Ok m -> In m l.
Proof.
  destruct l as [|c l]; simpl; [discriminate|]. intros Hm. inversion Hm as [Heq]. clear Hm Heq.
  revert c. induction l as [|v l IH]; simpl; intros c; [now left|].
  destruct (IH (if ltb v c then v else c)) as [Hc|Hl]; [|now right; right].
  rewrite <- Hc. destruct (ltb v c); [right; now left|now left].
Qed.

Lemma argsort_length (d : list num) : length (Matcher.argsort d) = length d.
Proof.
  unfold Matcher.argsort. rewrite length_map.
  rewrite (Permutation_length (sort_permutation _)).
  rewrite length_combine, length_seq. apply Nat.min_id.
Qed.

(** A row is compared only when [im2_features] has two rows or more. *)
Lemma match_row_two (i : nat) (row : list num) (f2 : matrix num)
    (r : option (nat * nat * num)) :
  Matcher.match_row i row f2 = Ok r -> (2 <= length f2)%nat.
Proof.
  unfold Matcher.match_row. intros Hrow.
  destruct (Matcher.distances row f2) as [d|e] eqn:Hd; simpl in Hrow; [|discriminate].
  apply mapM_length in Hd.
  destruct (Py.index (Matcher.argsort d) 0) as [s0|e]; simpl in Hrow; [|discriminate].
  destruct (Py.index d s0) as [d1|e]; simpl in Hrow; [|discriminate].
  destruct (Py.index (Matcher.argsort d) 1) as [s1|e] eqn:H1; simpl in Hrow; [|discriminate].
  apply index_ok in H1.
  assert (Hlt : (1 < length (Matcher.argsort d))%nat)
    by (apply nth_error_Some; congruence).
  rewrite argsort_length in Hlt. lia.
Qed.

Lemma match_loop_sorted (f2 : matrix num) (f1 : matrix num) (i : nat)
    (acc : list (nat * nat) * list num) :
  Matcher.match_loop i f1 f2 = Ok acc ->
  StronglySorted lt (map fst (fst acc)).
Proof.
  revert i acc. induction f1 as [|row rest IH]; simpl; intros i acc Hl.
  - inversion Hl; subst. constructor.
  - destruct (Matcher.match_row i row f2) as [r|e] eqn:Hr; simpl in Hl; [|discriminate].
    destruct (Matcher.match_loop (S i) rest f2) as [acc'|e] eqn:Hrest; simpl in Hl;
      [|discriminate].
    pose proof (IH (S i) acc' Hrest) as Hs.
    destruct (match_loop_invariant _ _ _ _ Hrest) as [_ [_ [Hall _]]].
    destruct r as [[m c]|]; inversion Hl; subst; simpl; [|exact Hs].
    constructor; [exact Hs|].
    destruct (match_row_some i row f2 m c Hr) as [Hm _].
    apply Forall_forall. intros k Hk. apply in_map_iff in Hk.
    destruct Hk as [m' [<- Hin]]. rewrite Forall_forall in Hall.
    specialize (Hall m' Hin). lia.
Qed.

(** X3.  [match_features] returns only when [im1_features] has a row,
    [im2_features] has at least two, and at least one match was accepted;
    no confidence it returns is [nan]. *)
Theorem return_needs_a_match (im1_features im2_features : matrix num)
    (matches : list (nat * nat)) (confidences : list num) :
  Matcher.match_features im1_features im2_features = Ok (matches, confidences) ->
  (1 <= length matches)%nat /\
  (1 <= length im1_features)%nat /\
  (2 <= length im2_features)%nat /\
  Forall (fun c => isnan c = false) confidences.
Proof.
  unfold Matcher.match_features. intros Hm.
  destruct (Matcher.match_loop 0 im1_features im2_features) as [acc|e] eqn:Hl;
    simpl in Hm; [|discriminate].
  destruct (Matcher.np_min _) as [lowest|e] eqn:Hmin; simpl in Hm; [|discriminate].
  inversion Hm; subst. clear Hm.
  destruct (match_loop_invariant _ _ _ _ Hl) as [Hlen [Hle _]].
  apply np_min_in in Hmin. apply filter_In in Hmin. destruct Hmin as [Hin Hnan].
  assert (Hk : (1 <= length (fst acc))%nat).
  { rewrite Hlen. destruct (snd acc); [contradiction|simpl; lia]. }
  split; [exact Hk|]. split; [lia|]. split.
  - destruct im1_features as [|row rest]; [simpl in Hle; lia|].
    simpl in Hl.
    destruct (Matcher.match_row 0 row im2_features) as [r|e] eqn:Hr; [|discriminate].
    exact (match_row_two _ _ _ _ Hr).
  - apply Forall_forall. intros c Hc. apply in_map_iff in Hc.
    destruct Hc as [c' [<- _]].
    destruct (isnan c') eqn:E; [|exact E].
    now apply negb_true_iff in Hnan.
Qed.

(** X4.  The matches come in increasing order of the row of
    [im1_features]. *)
Theorem matches_in_row_order (im1_features im2_features : matrix num)
    (matches : list (nat * nat)) (confidences : list num) :
  Matcher.match_features im1_features im2_features = Ok (matches, confidences) ->
  StronglySorted lt (map fst matches).
Proof.
  unfold Matcher.match_features. intros Hm.
  destruct (Matcher.match_loop 0 im1_features im2_features) as [acc|e] eqn:Hl;
    simpl in Hm; [|discriminate].
  destruct (Matcher.np_min _) as [lowest|e]; simpl in Hm; [|discriminate].
  inversion Hm; subst. exact (match_loop_sorted _ _ _ _ Hl).
Qed.

End MatcherReturns.

Lemma return_needs_a_match_witness :
  exists matches confidences,
    Matcher.match_features MatchSample.features1 MatchSample.features2
      = Ok (matches, confidences) /\
    ((1 <= length matches)%nat /\
     (1 <= length MatchSample.features1)%nat /\
     (2 <= length MatchSample.features2)%nat /\
     Forall (fun c => isnan c = false) confidences).
Proof.
  eexists. eexists. split; [vm_compute; reflexivity|].
  apply (return_needs_a_match MatchSample.features1 MatchSample.features2).
  vm_compute. reflexivity.
Defined.

Lemma matches_in_row_order_witness :
  exists matches confidences,
    Matcher.match_features MatchSample.features1 MatchSample.features2
      = Ok (matches, confidences) /\
    StronglySorted lt (map fst matches).
Proof.
  eexists. eexists. split; [vm_compute; reflexivity|].
  apply (matches_in_row_order MatchSample.features1 MatchSample.features2 _
           (snd (([(0%nat, 0%nat); (1%nat, 2%nat)],
                  [sub one (div (sqrt (of_Z 1)) (sqrt (of_Z 18))); of_Z 1])))).
  vm_compute. reflexivity.
Defined.


(** ** The ratio test over the reals, continued *)

Section RatioMore.
Local Open Scope R_scope.

Lemma match_features_real (f1 f2 : matrix R) (ms : list (nat * nat)) (cs : list R) :
  Matcher.match_features f1 f2 = Ok (ms, cs) -> Matcher.match_loop 0 f1 f2 = Ok (ms, cs).
Proof.
  unfold Matcher.match_features.
  destruct (Matcher.match_loop 0 f1 f2) as [[ms' cs']|e]; cbn [bind fst snd]; [|discriminate].
  rewrite filter_not_nan.
  destruct (Matcher.np_min cs') as [lowest|e]; cbn [bind]; [|discriminate].
  intros Hm. inversion Hm; subst. simpl. now rewrite map_id.
Qed.

Lemma in_combine_partner {A B : Type} (l : list A) (l' : list B) (b : B) :
  length l = length l' -> In b l' -> exists a, In (a, b) (combine l l').
Proof.
  revert l'. induction l as [|a l IH]; intros [|b' l'] Hlen Hin; try discriminate.
  - contradiction.
  - simpl in *. destruct Hin as [->|Hin]; [eauto|].
    destruct (IH l') as [a' Ha']; [lia|exact Hin|]. eauto.
Qed.

Lemma in_combine_l_partner {A B : Type} (l : list A) (l' : list B) (a : A) :
  length l = length l' -> In a l -> exists b, In (a, b) (combine l l').
Proof.
  revert l'. induction l as [|a' l IH]; intros [|b' l'] Hlen Hin; try discriminate.
  - contradiction.
  - simpl in *. destruct Hin as [->|Hin]; [eauto|].
    destruct (IH l') as [b Hb]; [lia|exact Hin|]. eauto.
Qed.

(** X5 (real arithmetic).  Every confidence that [match_features] returns
    lies above 0.2 and is at most 1: a match passes the ratio test with
    [d1/d2 < 0.8]. *)
Theorem confidence_above_fifth (im1_features im2_features : matrix R) (D : nat)
    (matches : list (nat * nat)) (confidences : list R) :
  Forall (fun r => length r = D) im1_features ->
  Forall (fun r => length r = D) im2_features ->
  (2 <= length im2_features)%nat ->
  Matcher.match_features im1_features im2_features = Ok (matches, confidences) ->
  Forall (fun c => 2 / 10 < c <= 1) confidences.
Proof.
  intros Hf1 Hf2 Hlen Hm. apply match_features_real in Hm.
  destruct (match_loop_real im2_features D im1_features 0%nat Hf1 Hf2 Hlen)
    as [ms [cs [Hl [Hlc [_ Hin]]]]].
  rewrite Hl in Hm. inversion Hm; subst. clear Hm.
  apply Forall_forall. intros c Hc.
  destruct (in_combine_partner matches confidences c Hlc Hc) as [[i j] Hij].
  apply Hin in Hij. destruct Hij as [_ [row [_ [d1 [d2 [Hs1 [_ [Hlt ->]]]]]]]].
  assert (Hd1 : 0 <= d1).
  { destruct Hs1 as [[r [_ ->]] _]. apply dist_nonneg. }
  assert (Hd2 : 0 < d2) by lra.
  assert (Hq : d1 / d2 * d2 = d1) by (field; lra).
  assert (0 <= d1 / d2) by (apply Rle_mult_inv_pos; assumption).
  assert (d1 / d2 < 8 / 10) by nra.
  lra.
Qed.

Lemma dist_self (a : list R) : Ratio.dist a a = 0.
Proof.
  unfold Ratio.dist.
  assert (Hz : fold_right Rplus 0
                 (map (fun p => (fst p - snd p) * (fst p - snd p)) (combine a a)) = 0).
  { induction a as [|v a IH]; simpl; [reflexivity|]. rewrite IH. ring. }
  rewrite Hz. apply sqrt_0.
Qed.

Lemma squared_differences_nonneg (a b : list R) :
  0 <= fold_right Rplus 0 (map (fun p => (fst p - snd p) * (fst p - snd p)) (combine a b)).
Proof.
  revert b. induction a as [|u a IH]; intros [|v b]; simpl; try lra.
  specialize (IH b). pose proof (Rle_0_sqr (u - v)) as Hsq. unfold Rsqr in Hsq. lra.
Qed.

Lemma dist_zero (a b : list R) : length a = length b -> Ratio.dist a b = 0 -> a = b.
Proof.
  unfold Ratio.dist. intros Hlen Hd.
  apply sqrt_eq_0 in Hd; [|apply squared_differences_nonneg].
  revert b Hlen Hd. induction a as [|u a IH]; intros [|v b] Hlen Hd; try discriminate.
  - reflexivity.
  - simpl in Hd. pose proof (squared_differences_nonneg a b) as Hab.
    pose proof (Rle_0_sqr (u - v)) as Hsq. unfold Rsqr in Hsq.
    assert (Hz : (u - v) * (u - v) = 0) by lra.
    assert (Huv : u = v).
    { apply Rmult_integral in Hz. destruct Hz; lra. }
    f_equal; [exact Huv|]. apply IH; [simpl in Hlen; lia|]. lra.
Qed.

(** A row that occurs once in the matrix passes the ratio test against the
    matrix, with itself as nearest row and confidence 1. *)
Lemma passes_self (features : matrix R) (D : nat) (i : nat) (row : list R) :
  Forall (fun r => length r = D) features ->
  (2 <= length features)%nat ->
  nth_error features i = Some row ->
  (forall k other, k <> i -> nth_error features k = Some other -> other <> row) ->
  Ratio.passes row features i 1.
Proof.
  intros Hf Hlen Hrow Honce.
  assert (Hnth : forall k v,
             nth_error (map (Ratio.dist row) features) k = Some v <->
             exists r, nth_error features k = Some r /\ v = Ratio.dist row r).
  { intros k v. rewrite nth_error_map. destruct (nth_error features k) as [r|]; simpl.
    - split; [intros Hv; inversion Hv; eauto|].
      intros [r' [Hr ->]]. inversion Hr. reflexivity.
    - split; [discriminate|]. intros [r' [Hr _]]. discriminate. }
  assert (Hlenrow : forall k r, nth_error features k = Some r -> length row = length r).
  { intros k r Hr. rewrite Forall_forall in Hf.
    rewrite (Hf row (nth_error_In _ _ Hrow)), (Hf r (nth_error_In _ _ Hr)). reflexivity. }
  destruct (argsort_top2 (map (Ratio.dist row) features)) as
      [s0 [s1 [d1 [d2 [rest [_ [H0 [H1 [Hne [Hmin Hmin2]]]]]]]]]];
    [now rewrite length_map|].
  apply Hnth in H0. destruct H0 as [r0 [Hr0 Hd1]].
  apply Hnth in H1. destruct H1 as [r1 [Hr1 Hd2]].
  assert (Hzero : d1 = 0).
  { apply Rle_antisym.
    - rewrite <- (dist_self row). apply (Hmin i). apply Hnth. eauto.
    - rewrite Hd1. apply dist_nonneg. }
  assert (Hs0 : s0 = i).
  { destruct (Nat.eq_dec s0 i) as [Heq|Hneq]; [exact Heq|exfalso].
    apply (Honce s0 r0 Hneq Hr0). symmetry.
    apply dist_zero; [exact (Hlenrow _ _ Hr0)|congruence]. }
  subst s0.
  assert (Hpos : 0 < d2).
  { pose proof (dist_nonneg row r1) as Hge. rewrite <- Hd2 in Hge.
    destruct (Req_dec d2 0) as [Heq|Hneq]; [exfalso|lra].
    apply (Honce s1 r1); [congruence|exact Hr1|]. symmetry.
    apply dist_zero; [exact (Hlenrow _ _ Hr1)|congruence]. }
  exists 0, d2. repeat split.
  - exists row. split; [exact Hrow|]. symmetry. apply dist_self.
  - intros k r _. apply dist_nonneg.
  - exists s1, r1. repeat split; auto.
  - intros k r Hk Hr. apply (Hmin2 k); [exact Hk|]. apply Hnth. eauto.
  - lra.
  - field. lra.
Qed.

(** X6 (real arithmetic).  Matching a descriptor matrix against itself
    gives self-matches only, each with confidence 1, and for exactly the
    rows that occur once in the matrix. *)
Theorem self_matches_only (features : matrix R) (D : nat)
    (matches : list (nat * nat)) (confidences : list R) :
  Forall (fun r => length r = D) features ->
  (2 <= length features)%nat ->
  Matcher.match_features features features = Ok (matches, confidences) ->
  Forall (fun m => snd m = fst m) matches /\
  Forall (fun c => c = 1) confidences /\
  (forall i k row other,
      In i (map fst matches) -> k <> i ->
      nth_error features i = Some row -> nth_error features k = Some other ->
      other <> row) /\
  (forall i row,
      nth_error features i = Some row ->
      (forall k other, k <> i -> nth_error features k = Some other -> other <> row) ->
      In (i, i) matches).
Proof.
  intros Hf Hlen Hm. apply match_features_real in Hm.
  destruct (match_loop_real features D features 0%nat Hf Hf Hlen)
    as [ms [cs [Hl [Hlc [_ Hin]]]]].
  rewrite Hl in Hm. inversion Hm; subst. clear Hm.
  assert (Hacc : forall i j c,
             In (i, j, c) (combine matches confidences) ->
             j = i /\ c = 1 /\
             forall k row other,
               k <> i -> nth_error features i = Some row ->
               nth_error features k = Some other -> other <> row).
  { intros i j c Hijc. apply Hin in Hijc. rewrite Nat.sub_0_r in Hijc.
    destruct Hijc as [_ [row [Hrow [d1 [d2 [Hs1 [Hs2 [Hlt ->]]]]]]]].
    destruct Hs1 as [[rj [Hrj Hd1]] Hmin].
    destruct Hs2 as [_ Hmin2].
    assert (Hzero : d1 = 0).
    { apply Rle_antisym.
      - rewrite <- (dist_self row). exact (Hmin i row Hrow).
      - rewrite Hd1. apply dist_nonneg. }
    assert (Hji : j = i).
    { destruct (Nat.eq_dec j i) as [Heq|Hne]; [exact Heq|exfalso].
      assert (d2 <= 0).
      { rewrite <- (dist_self row). apply (Hmin2 i row); auto. }
      lra. }
    subst j. split; [reflexivity|]. split; [rewrite Hzero; field; lra|].
    intros k row' other Hk Hrow' Hother Heq.
    rewrite Hrow in Hrow'. inversion Hrow'; subst row'. subst other.
    assert (d2 <= 0).
    { rewrite <- (dist_self row). apply (Hmin2 k row); auto. }
    lra. }
  split; [|split; [|split]].
  4: { intros i row Hrow Honce.
       assert (Hc : In (i, i, 1) (combine matches confidences)).
       { apply Hin. split; [lia|]. rewrite Nat.sub_0_r. exists row. split; [exact Hrow|].
         exact (passes_self features D i row Hf Hlen Hrow Honce). }
       eapply in_combine_l. exact Hc. }
  - apply Forall_forall. intros [i j] Hij.
    destruct (in_combine_l_partner matches confidences (i, j)) as [c Hc]; auto.
    destruct (Hacc i j c Hc) as [-> _]. reflexivity.
  - apply Forall_forall. intros c Hc.
    destruct (in_combine_partner matches confidences c Hlc Hc) as [[i j] Hij].
    destruct (Hacc i j c Hij) as [_ [-> _]]. reflexivity.
  - intros i k row other Hi Hk Hrow Hother.
    apply in_map_iff in Hi. destruct Hi as [[i' j] [Heq Hij]]. simpl in Heq. subst i'.
    destruct (in_combine_l_partner matches confidences (i, j)) as [c Hc]; auto.
    destruct (Hacc i j c Hc) as [_ [_ Hdiff]]. eapply Hdiff; eauto.
Qed.

(** Matching a matrix against itself returns as soon as one row occurs
    once. *)
Lemma self_match_returns (features : matrix R) (D : nat) (i : nat) (row : list R) :
  Forall (fun r => length r = D) features ->
  (2 <= length features)%nat ->
  nth_error features i = Some row ->
  (forall k other, k <> i -> nth_error features k = Some other -> other <> row) ->
  exists matches confidences,
    Matcher.match_features features features = Ok (matches, confidences).
Proof.
  intros Hf Hlen Hrow Honce.
  destruct (match_loop_real features D features 0%nat Hf Hf Hlen)
    as [ms [cs [Hl [Hlc [_ Hin]]]]].
  assert (Hc : In (i, i, 1) (combine ms cs)).
  { apply Hin. split; [lia|]. rewrite Nat.sub_0_r. exists row. split; [exact Hrow|].
    exact (passes_self features D i row Hf Hlen Hrow Honce). }
  unfold Matcher.match_features. rewrite Hl. cbn [bind fst snd].
  rewrite filter_not_nan.
  destruct ms as [|m ms]; [contradiction|]. destruct cs as [|c cs]; [discriminate|].
  simpl. rewrite map_id. eauto.
Qed.

Lemma self_sample_returns :
  exists matches confidences,
    Matcher.match_features SelfSample.features SelfSample.features
    = Ok (matches, confidences).
Proof.
  apply (self_match_returns SelfSample.features 2%nat 0%nat [0; 0]).
  - repeat constructor.
  - simpl. lia.
  - reflexivity.
  - intros [|[|k]] other Hk Hother; simpl in Hother; try contradiction.
    + inversion Hother. intros Heq. inversion Heq. lra.
    + destruct k; discriminate.
Qed.

End RatioMore.

Lemma confidence_above_fifth_witness :
  exists matches confidences,
    Matcher.match_features SelfSample.features SelfSample.features
    = Ok (matches, confidences) /\
    Forall (fun c => (2 / 10 < c <= 1)%R) confidences.
Proof.
  destruct self_sample_returns as [ms [cs Hret]].
  exists ms, cs. split; [exact Hret|].
  apply (confidence_above_fifth SelfSample.features SelfSample.features 2%nat ms cs).
  - repeat constructor.
  - repeat constructor.
  - simpl. lia.
  - exact Hret.
Defined.

Lemma self_matches_only_witness :
  exists matches confidences,
    Matcher.match_features SelfSample.features SelfSample.features
    = Ok (matches, confidences) /\
    Forall (fun m => snd m = fst m) matches /\
    Forall (fun c => c = 1%R) confidences.
Proof.
  destruct self_sample_returns as [ms [cs Hret]].
  exists ms, cs. split; [exact Hret|].
  destruct (self_matches_only SelfSample.features 2%nat ms cs) as [Hm [Hc _]].
  - repeat constructor.
  - simpl. lia.
  - exact Hret.
  - split; assumption.
Defined.


(** ** The orientation histogram over the reals *)

Section HistogramTotal.
Local Open Scope R_scope.

Ltac decide_comparisons :=
  repeat match goal with
         | |- context [Rle_dec ?x ?y] => destruct (Rle_dec x y); try lra
         | |- context [Rlt_dec ?x ?y] => destruct (Rlt_dec x y); try lra
         end.

(** A value of [[0, 2 pi]] lies in exactly one bin. *)
Lemma bins_partition (a w : R) :
  0 <= a <= 2 * PI ->
  (if Descriptor.in_bin 0 a then w else 0) + (if Descriptor.in_bin 1 a then w else 0) +
  (if Descriptor.in_bin 2 a then w else 0) + (if Descriptor.in_bin 3 a then w else 0) +
  (if Descriptor.in_bin 4 a then w else 0) + (if Descriptor.in_bin 5 a then w else 0) +
  (if Descriptor.in_bin 6 a then w else 0) + (if Descriptor.in_bin 7 a then w else 0) = w.
Proof.
  intros Ha. pose proof PI_RGT_0 as Hpi.
  unfold Descriptor.in_bin, Descriptor.edge. simpl. unfold Rleb, Rltb.
  decide_comparisons; cbn [andb]; lra.
Qed.

Lemma bin_sum_cons (k : Z) (p : R * R) (l : list (R * R)) :
  fold_right Rplus 0 (map snd (filter (fun q => Descriptor.in_bin k (fst q)) (p :: l)))
  = (if Descriptor.in_bin k (fst p) then snd p else 0)
    + fold_right Rplus 0 (map snd (filter (fun q => Descriptor.in_bin k (fst q)) l)).
Proof.
  simpl. destruct (Descriptor.in_bin k (fst p)); simpl; lra.
Qed.

Lemma histogram_total_pairs (l : list (R * R)) :
  Forall (fun p => 0 <= fst p <= 2 * PI) l ->
  fold_right Rplus 0
    (map (fun k => np_sum (map snd (filter (fun q => Descriptor.in_bin k (fst q)) l)))
         [0; 1; 2; 3; 4; 5; 6; 7]%Z)
  = fold_right Rplus 0 (map snd l).
Proof.
  induction 1 as [|p l Hp _ IH].
  - simpl. rewrite !np_sum_real. simpl. lra.
  - cbn [map fold_right] in *. rewrite !np_sum_real in *. rewrite !bin_sum_cons.
    pose proof (bins_partition (fst p) (snd p) Hp) as Hpart. lra.
Qed.

Lemma map_snd_combine {A B : Type} (l : list A) (l' : list B) :
  length l = length l' -> map snd (combine l l') = l'.
Proof.
  revert l'. induction l as [|a l IH]; intros [|b l'] Hlen; try discriminate; simpl;
    [reflexivity|]. rewrite IH by (simpl in Hlen; lia). reflexivity.
Qed.

(** X7 (real arithmetic).  Every orientation of lines 150-151 lies in
    [[0, 2 pi)], and on orientations of [[0, 2 pi]] the eight bins of
    [np.histogram] add up to the sum of the weights: no gradient magnitude
    of a cell is dropped or counted twice. *)
Theorem histogram_keeps_magnitude (x y : R) (a w : list R) :
  (let t := arctan2 y x in
   0 <= (if ltb t zero then add t two_pi else t) < 2 * PI) /\
  (Forall (fun t => 0 <= t <= 2 * PI) a -> length a = length w ->
   np_sum (Descriptor.histogram a w) = np_sum w).
Proof.
  split.
  - cbv zeta. change (arctan2 y x) with (Rarctan2 y x).
    change (ltb (Rarctan2 y x) zero) with (Rltb (Rarctan2 y x) 0).
    change (add (Rarctan2 y x) two_pi) with (Rarctan2 y x + 2 * PI).
    pose proof PI_RGT_0 as Hpi. pose proof (atan_bound (y / x)) as Hat.
    unfold Rltb, Rarctan2. decide_comparisons.
  - intros Ha Hlen. unfold Descriptor.histogram.
    change (Py.range 0 8 1) with [0; 1; 2; 3; 4; 5; 6; 7]%Z.
    rewrite (np_sum_real (map _ _)), histogram_total_pairs.
    + rewrite map_snd_combine by exact Hlen. now rewrite np_sum_real.
    + apply Forall_forall. intros [t v] Hin. apply in_combine_l in Hin.
      rewrite Forall_forall in Ha. exact (Ha t Hin).
Qed.

End HistogramTotal.


(** ** The cells of [get_features] *)

Lemma fold_left_raise {A B : Type} (step : result A -> B -> result A) (l : list B)
    (e : exn) :
  (forall b, step (Raise e) b = Raise e) -> fold_left step l (Raise e) = Raise e.
Proof.
  intros Hstep. induction l as [|b l IH]; simpl; [reflexivity|]. now rewrite Hstep.
Qed.

Lemma range_five (n : Z) :
  5 <= n -> exists rest, Py.range 0 n 1 = 0 :: 1 :: 2 :: 3 :: 4 :: rest.
Proof.
  intros Hn. unfold Py.range.
  replace ((n - 0 + 1 - 1) / 1) with n by (rewrite Z.div_1_r; ring).
  replace (Z.to_nat n) with (5 + (Z.to_nat n - 5))%nat by lia.
  rewrite seq_app, map_app. simpl. eauto.
Qed.

Section WideFeature.
Context {num : Type} `{Arith num} `{Transcendental num}.

(** From [feature_width = 20] on, the loops of lines 171-172 reach the
    cell [(0, 4)], which [features] does not have. *)
Lemma fill_cells_wide (grad_w theta_w : matrix num) (fw : Z) :
  20 <= fw -> Descriptor.fill_cells grad_w theta_w fw = Raise IndexError.
Proof.
  intros Hfw. unfold Descriptor.fill_cells. rewrite int_quarter.
  destruct (range_five (Z.quot fw 4)) as [rest Hrange].
  { apply Z.quot_le_lower_bound; lia. }
  rewrite Hrange. cbn [list_prod map app fold_left fst snd].
  unfold Descriptor.set_cell at 5. cbn [Z.ltb Z.compare andb bind].
  unfold Descriptor.set_cell at 4. cbn [Z.ltb Z.compare andb bind].
  unfold Descriptor.set_cell at 3. cbn [Z.ltb Z.compare andb bind].
  unfold Descriptor.set_cell at 2. cbn [Z.ltb Z.compare andb bind].
  unfold Descriptor.set_cell at 1. cbn [Z.ltb Z.compare Pos.compare Pos.compare_cont andb bind].
  apply fold_left_raise. reflexivity.
Qed.

Variable pixel : Type.
Variable gaussian : list (list pixel) -> num -> matrix num.
Variables scharr_v scharr_h : matrix num -> matrix num.

(** X8.  With [feature_width >= 20] and a first interest point whose
    window lies inside the image, [get_features] raises [IndexError]: the
    loops over the cells run over [range(feature_width/4)], the side of a
    cell, instead of the four cells per side of [features]. *)
Theorem wide_feature_raises (image : list (list pixel)) (x y : list Z) (feature_width : Z)
    (cor_x cor_y : Z) (xs ys : list Z) :
  x = cor_x :: xs -> y = cor_y :: ys ->
  20 <= feature_width ->
  feature_width <= 2 * cor_x + 2 ->
  2 * cor_x + feature_width < 2 * Z.of_nat (length image) ->
  feature_width <= 2 * cor_y + 2 ->
  2 * cor_y + feature_width < 2 * Z.of_nat (length (hd [] image)) ->
  Descriptor.get_features pixel gaussian scharr_v scharr_h image x y feature_width
  = Raise IndexError.
Proof.
  intros -> -> Hfw Hx1 Hx2 Hy1 Hy2.
  unfold Descriptor.get_features, Descriptor.features_of_gradients.
  cbn [combine mapM].
  unfold Descriptor.describe_point at 1. cbn [fst snd].
  rewrite (row_bounds_interior cor_x (cor_x :: xs) feature_width _
             (or_introl eq_refl) Hx1 Hx2).
  rewrite (col_bounds_interior cor_y (cor_y :: ys) feature_width _
             (or_introl eq_refl) Hy1 Hy2).
  cbn [Descriptor.int_first Descriptor.astype_second bind].
  match goal with
  | |- context [Descriptor.last_entry ?a] =>
      destruct (last_entry_ok a) as [i2l Hi2]; [discriminate|rewrite Hi2; cbn [bind]]
  end.
  match goal with
  | |- context [Descriptor.last_entry ?a] =>
      destruct (last_entry_ok a) as [j2l Hj2]; [discriminate|rewrite Hj2; cbn [bind]]
  end.
  rewrite fill_cells_wide by exact Hfw. reflexivity.
Qed.

End WideFeature.

Lemma wide_feature_raises_witness :
  Descriptor.get_features Z BorderSample.gaussian BorderSample.scharr BorderSample.scharr
    WideSample.image WideSample.x WideSample.y 32
  = Raise IndexError.
Proof.
  apply (wide_feature_raises Z BorderSample.gaussian BorderSample.scharr BorderSample.scharr
           WideSample.image WideSample.x WideSample.y 32 32 32 [] []);
    try reflexivity; simpl; lia.
Defined.


Lemma nth_set_nth_other {A : Type} (l : list A) (n m : nat) (v d : A) :
  n <> m -> nth n (Descriptor.set_nth l m v) d = nth n l d.
Proof.
  revert n m. induction l as [|a l IH]; intros [|n] [|m] Hne; simpl; auto; lia.
Qed.

Lemma nth_set_nth_same {A : Type} (l : list A) (m : nat) (v d : A) :
  nth m (Descriptor.set_nth l m v) d = v \/ Descriptor.set_nth l m v = l.
Proof.
  revert m. induction l as [|a l IH]; intros [|m]; simpl; auto.
  destruct (IH m) as [Hv|Heq]; [now left|right; now rewrite Heq].
Qed.

Lemma nth_concat_const {A : Type} (ls : list (list A)) (n k b : nat) (d : A) :
  Forall (fun l => length l = n) ls -> (b < n)%nat ->
  nth (k * n + b) (concat ls) d = nth b (nth k ls []) d.
Proof.
  intros Hls Hb. revert k. induction Hls as [|l ls Hl _ IH]; intros k.
  - simpl. destruct (k * n + b)%nat, k, b; reflexivity.
  - destruct k as [|k]; simpl.
    + apply app_nth1. lia.
    + rewrite app_nth2 by lia. rewrite <- (IH k). f_equal. lia.
Qed.


Section CellFacts.
Context {num : Type} `{Arith num} `{Transcendental num}.

(** The loops of lines 171-172 assign the cells [(i, j)] with
    [i, j < int(feature_width/4)] only. *)
Lemma fill_cells_invariant_in (Inv : Descriptor.block -> Prop)
    (grad_w theta_w : matrix num) (fw : Z) (f : Descriptor.block) :
  Inv Descriptor.zero_block ->
  (forall g g' i j h,
      0 <= i < Z.quot fw 4 -> 0 <= j < Z.quot fw 4 ->
      Inv g -> Descriptor.set_cell g i j h = Ok g' -> Inv g') ->
  Descriptor.fill_cells grad_w theta_w fw = Ok f -> Inv f.
Proof.
  intros Hzero Hstep. unfold Descriptor.fill_cells. rewrite int_quarter.
  assert (Hcells : forall ij,
             In ij (list_prod (Py.range 0 (Z.quot fw 4) 1) (Py.range 0 (Z.quot fw 4) 1)) ->
             0 <= fst ij < Z.quot fw 4 /\ 0 <= snd ij < Z.quot fw 4).
  { intros [i j] Hin. apply in_prod_iff in Hin. destruct Hin as [Hi Hj].
    apply in_range in Hi; [|lia]. apply in_range in Hj; [|lia]. simpl. lia. }
  revert Hcells Hzero.
  generalize (list_prod (Py.range 0 (Z.quot fw 4) 1) (Py.range 0 (Z.quot fw 4) 1)).
  generalize (Descriptor.zero_block (num:=num)).
  intros g cells. revert g f. induction cells as [|ij cells IH]; intros g f Hcells Hg.
  - simpl. intros Hf. inversion Hf; subst. exact Hg.
  - simpl. destruct (Hcells ij (or_introl eq_refl)) as [Hi Hj].
    destruct (Descriptor.set_cell g (fst ij) (snd ij) _) as [g'|e] eqn:Hset.
    + apply IH; [intros ij' Hin; apply Hcells; now right|].
      eapply Hstep; [exact Hi|exact Hj|exact Hg|exact Hset].
    + rewrite fold_left_raise by reflexivity. discriminate.
Qed.

(** The rows of the result, block by block. *)
Lemma features_blocks (dx dy : matrix num) (shape0 shape1 : Z) (x y : list Z) (fw : Z)
    (features : matrix num) :
  Descriptor.features_of_gradients dx dy shape0 shape1 x y fw = Ok features ->
  exists blocks,
    features = map Descriptor.finish (map (fun f => concat (concat f)) blocks) /\
    Forall (fun b => b = Descriptor.zero_block \/
                     exists grad_w theta_w, Descriptor.fill_cells grad_w theta_w fw = Ok b)
           blocks.
Proof.
  unfold Descriptor.features_of_gradients.
  destruct (mapM _ (combine x y)) as [described|e] eqn:Hd; simpl; [|discriminate].
  destruct (Descriptor.reshape _) as [rows|e] eqn:Hr; simpl; [|discriminate].
  intros Hf. inversion Hf; subst.
  exists (described ++ repeat Descriptor.zero_block (length x - length described)).
  unfold Descriptor.reshape in Hr.
  destruct (described ++ repeat Descriptor.zero_block (length x - length described))
    as [|b bs] eqn:Hb; [discriminate|].
  inversion Hr; subst. split; [reflexivity|].
  rewrite <- Hb. apply Forall_app. split.
  - eapply mapM_Forall; [|exact Hd]. intros cor f _ Hf'. right.
    unfold Descriptor.describe_point in Hf'.
    destruct (Descriptor.int_first _) as [i1|e]; simpl in Hf'; [|discriminate].
    destruct (Descriptor.astype_second _) as [i2|e]; simpl in Hf'; [|discriminate].
    destruct (Descriptor.int_first _) as [j1|e]; simpl in Hf'; [|discriminate].
    destruct (Descriptor.astype_second _) as [j2|e]; simpl in Hf'; [|discriminate].
    destruct (Descriptor.last_entry i2) as [i2l|e]; simpl in Hf'; [|discriminate].
    destruct (Descriptor.last_entry j2) as [j2l|e]; simpl in Hf'; [|discriminate].
    eauto.
  - apply Forall_forall. intros f Hin. apply repeat_spec in Hin. now left.
Qed.

(** The cells that the loops do not reach keep the zeros of line 144. *)
Lemma unused_cells_zero (grad_w theta_w : matrix num) (fw : Z) (f : Descriptor.block)
    (i j : nat) :
  Descriptor.fill_cells grad_w theta_w fw = Ok f ->
  Z.quot fw 4 <= Z.of_nat i \/ Z.quot fw 4 <= Z.of_nat j ->
  nth j (nth i f []) [] = nth j (nth i Descriptor.zero_block []) [].
Proof.
  intros Hf Hij. revert Hf.
  apply (fill_cells_invariant_in
           (fun g => nth j (nth i g []) [] = nth j (nth i Descriptor.zero_block []) []));
    [reflexivity|].
  intros g g' i' j' h Hi' Hj' Hg Hset. unfold Descriptor.set_cell in Hset.
  destruct ((i' <? 4) && (j' <? 4)); [|discriminate]. inversion Hset; subst. clear Hset.
  rewrite <- Hg.
  destruct (Nat.eq_dec i (Z.to_nat i')) as [->|Hne].
  - destruct (nth_set_nth_same g (Z.to_nat i')
                (Descriptor.set_nth (nth (Z.to_nat i') g []) (Z.to_nat j') h) [])
      as [Hsame|Heq].
    + rewrite Hsame. apply nth_set_nth_other. lia.
    + rewrite Heq. reflexivity.
  - rewrite nth_set_nth_other by exact Hne. reflexivity.
Qed.

End CellFacts.


Lemma nth_map_fixed {A : Type} (f : A -> A) (l : list A) (n : nat) (d : A) :
  f d = d -> nth n (map f l) d = f (nth n l d).
Proof.
  intros Hd. revert n. induction l as [|a l IH]; intros [|n]; simpl; auto.
Qed.






Section RowFacts.
Context {num : Type} `{Arith num} `{Transcendental num}.

Lemma fill_cells_shape (grad_w theta_w : matrix num) (fw : Z) (f : Descriptor.block) :
  Descriptor.fill_cells grad_w theta_w fw = Ok f -> Shape.block_shape f.
Proof.
  apply fill_cells_invariant; [apply zero_block_shape|].
  intros g g' i j Hg Hset.
  eapply set_cell_shape; [exact Hg|apply histogram_length|exact Hset].
Qed.




End RowFacts.


Section RowFactsReal.
Local Open Scope R_scope.

Lemma finish_entry_zero (row : list R) (n : nat) :
  nth n row 0 = 0 -> nth n (Descriptor.finish row) 0 = 0.
Proof.
  intros Hn. unfold Descriptor.finish, Descriptor.normalize. rewrite !map_map.
  assert (Hfix : forall d : R, Descriptor.compress (Descriptor.clip (div 0 d)) = 0).
  { intros d. change (div 0 d) with (0 / d). unfold Rdiv. rewrite Rmult_0_l, clip_zero.
    apply compress_zero. }
  rewrite nth_map_fixed by apply Hfix. rewrite Hn. apply Hfix.
Qed.


Lemma zero_block_entry (i j b : nat) :
  nth b (nth j (nth i (Descriptor.zero_block (num:=R)) []) []) 0 = 0.
Proof.
  apply (nth_Forall (fun v => v = 0)); [|reflexivity].
  apply (nth_Forall (Forall (fun v => v = 0))); [|constructor].
  apply (nth_Forall (Forall (Forall (fun v => v = 0)))); [|constructor].
  unfold Descriptor.zero_block.
  apply Forall_forall. intros c Hc. apply repeat_spec in Hc. subst c.
  apply Forall_forall. intros h Hh. apply repeat_spec in Hh. subst h.
  apply Forall_forall. intros v Hv. apply repeat_spec in Hv. subst v. reflexivity.
Qed.

Lemma flat_entry (f : list (list (list R))) (i j b : nat) :
  Shape.block_shape f -> (j < 4)%nat -> (b < 8)%nat ->
  nth ((i * 4 + j) * 8 + b) (concat (concat f)) 0 = nth b (nth j (nth i f []) []) 0.
Proof.
  intros [Hlen Hall] Hj Hb.
  rewrite nth_concat_const.
  - rewrite nth_concat_const; [reflexivity| |exact Hj].
    eapply Forall_impl; [|exact Hall]. simpl. tauto.
  - apply Forall_concat. eapply Forall_impl; [|exact Hall]. simpl. tauto.
  - exact Hb.
Qed.

Variable pixel : Type.
Variable gaussian : list (list pixel) -> R -> matrix R.
Variables scharr_v scharr_h : matrix R -> matrix R.

(** X9 (real arithmetic).  Below [feature_width = 16] part of every
    descriptor is always zero: the entries of the cells [(i, j)] with
    [i >= int(feature_width/4)] or [j >= int(feature_width/4)], which the
    loops of lines 171-172 never assign.  (With [feature_width = 8] these
    are 96 of the 128 entries.) *)
Theorem small_feature_zero_entries (image : list (list pixel)) (x y : list Z)
    (feature_width : Z) (features : matrix R) (row : list R) (i j b : nat) :
  Descriptor.get_features pixel gaussian scharr_v scharr_h image x y feature_width
    = Ok features ->
  In row features ->
  (i < 4)%nat -> (j < 4)%nat -> (b < 8)%nat ->
  (Z.quot feature_width 4 <= Z.of_nat i \/ Z.quot feature_width 4 <= Z.of_nat j)%Z ->
  nth ((i * 4 + j) * 8 + b) row 0 = 0.
Proof.
  unfold Descriptor.get_features. intros Hf Hrow Hi Hj Hb Hij.
  apply features_blocks in Hf. destruct Hf as [blocks [-> Hblocks]].
  apply in_map_iff in Hrow. destruct Hrow as [h [<- Hh]].
  apply in_map_iff in Hh. destruct Hh as [f [<- Hf]].
  rewrite Forall_forall in Hblocks. apply finish_entry_zero.
  destruct (Hblocks f Hf) as [->|[grad_w [theta_w Hfill]]].
  - rewrite flat_entry by (try apply zero_block_shape; assumption).
    apply zero_block_entry.
  - rewrite flat_entry by (try exact (fill_cells_shape _ _ _ _ Hfill); assumption).
    rewrite (unused_cells_zero _ _ _ _ i j Hfill Hij). apply zero_block_entry.
Qed.


End RowFactsReal.

Lemma small_feature_zero_entries_witness :
  nth ((1 * 4 + 0) * 8 + 0) (FeatureSample.ceiling :: repeat 0%R 127%nat) 0%R = 0%R.
Proof.
  apply (small_feature_zero_entries R FeatureSample.gaussian_id FeatureSample.scharr_v_ramp
           FeatureSample.scharr_h_ramp FeatureSample.ramp [1%Z] [1%Z] 4
           [FeatureSample.ceiling :: repeat 0%R 127%nat]
           (FeatureSample.ceiling :: repeat 0%R 127%nat) 1%nat 0%nat 0%nat).
  - exact ramp_get_features.
  - now left.
  - lia.
  - lia.
  - lia.
  - left. vm_compute. discriminate.
Defined.




(** ** [get_features] on the points of [get_interest_points] *)

Section Pipeline.
Context {num : Type} `{Arith num} `{Transcendental num}.
Variable pixel : Type.
Variable cv2_Sobel : list (list pixel) -> Z -> Z -> list (list Z).
Variable gaussian_bytes : list (list Z) -> num -> matrix num.
Variable gaussian : list (list pixel) -> num -> matrix num.
Variables scharr_v scharr_h : matrix num -> matrix num.


End Pipeline.

